(** * SDIM_logits: threshold-based rejection evaluation

    A shallow embedding of the two evaluation scripts

      - [eval_adv.py]        ([attack_run_rejection_policy])
      - [eval_robustness.py] ([get_c_dataset], [CorruptionDataset],
                              [inference_rejection])

    Conventions of the embedding.

      - Python floats and tensor entries are exact rationals ([Q]): finite and
        totally ordered, no rounding and no NaN.
      - Class labels, predictions, counters and lengths are [nat]; Python
        list indices (which may be negative) are [Z].
      - A tensor of shape (B, C) is the list of its B rows, a row a [list Q].
      - A Python exception is a value of [pyerr]; code that may raise returns
        [result A].
      - The model (SDIM in eval mode) is a function from an input to its
        score vector; the attack, the data sets and the corruption files are
        parameters. *)

From Stdlib Require Import String List Arith ZArith QArith Qround Qpower Lia Lqa Bool.
From Stdlib Require Import Permutation Sorted.
From Stdlib Require Import Ascii.
Import ListNotations.

Local Open Scope nat_scope.

(** ** Exceptions *)

Inductive pyerr : Type :=
| ZeroDivisionError
| IndexError
| ValueError
| RuntimeError
| TypeError
| AssertionError
| UnboundLocalError
| OverflowError.

Inductive result (A : Type) : Type :=
| Ok (a : A)
| Raise (e : pyerr).

Arguments Ok {A} a.
Arguments Raise {A} e.

Definition bind {A B : Type} (r : result A) (k : A -> result B) : result B :=
  match r with
  | Ok a => k a
  | Raise e => Raise e
  end.

Notation "x <- r ;; k" := (bind r (fun x => k))
  (at level 61, r at next level, right associativity).
Notation "' p <- r ;; k" := (bind r (fun p => k))
  (at level 61, p pattern, r at next level, right associativity).

Fixpoint mapM {A B : Type} (f : A -> result B) (l : list A) : result (list B) :=
  match l with
  | [] => Ok []
  | a :: l' => b <- f a ;; bs <- mapM f l' ;; Ok (b :: bs)
  end.

Definition of_option {A : Type} (e : pyerr) (o : option A) : result A :=
  match o with
  | Some a => Ok a
  | None => Raise e
  end.

(** ** Python and torch primitives *)

(** [a < b] and [a >= b] on scores, each computed on its own as the scripts
    do. *)
Definition Qltb (a b : Q) : bool :=
  match Qcompare a b with
  | Lt => true
  | _ => false
  end.

Definition Qgeb (a b : Q) : bool := Qle_bool b a.

(** [a / b] on Python numbers. *)
Definition py_div (a b : Q) : result Q :=
  if Qeq_bool b 0 then Raise ZeroDivisionError else Ok (a / b)%Q.

(** [int(q)]: truncation toward zero. *)
Definition py_int (q : Q) : Z := Z.quot (Qnum q) (Zpos (Qden q)).

(** [l[k]] on a Python list: negative indices count from the end. *)
Definition py_getitem {A : Type} (l : list A) (k : Z) : result A :=
  let n := Z.of_nat (length l) in
  if ((0 <=? k) && (k <? n))%Z then of_option IndexError (nth_error l (Z.to_nat k))
  else if ((- n <=? k) && (k <? 0))%Z then
         of_option IndexError (nth_error l (Z.to_nat (n + k)))
       else Raise IndexError.

(** [sorted(l)]: a stable sort that only asks [<]. *)
Fixpoint insert_sorted (x : Q) (l : list Q) : list Q :=
  match l with
  | [] => [x]
  | h :: t => if Qltb h x then h :: insert_sorted x t else x :: h :: t
  end.

Fixpoint sorted (l : list Q) : list Q :=
  match l with
  | [] => []
  | x :: t => insert_sorted x (sorted t)
  end.

(** [row.max()] / [row.argmax()]: the maximum of a score vector and the first
    index where it is reached; torch refuses an empty row. *)
Fixpoint row_max_from (best : Q) (besti i : nat) (row : list Q) : Q * nat :=
  match row with
  | [] => (best, besti)
  | v :: row' =>
      if Qltb best v then row_max_from v i (S i) row'
      else row_max_from best besti (S i) row'
  end.

Definition row_max (row : list Q) : result (Q * nat) :=
  match row with
  | [] => Raise IndexError
  | v :: row' => Ok (row_max_from v 0 1 row')
  end.

Definition argmax (row : list Q) : result nat :=
  '(_, i) <- row_max row ;; Ok i.

(** [t[mask]]: the entries of [t] where the boolean mask holds. *)
Fixpoint mask_select {A : Type} (mask : list bool) (t : list A) : list A :=
  match mask, t with
  | b :: mask', a :: t' =>
      if b then a :: mask_select mask' t' else mask_select mask' t'
  | _, _ => []
  end.

(** [thresholds[pred]]: index a 1-d tensor by a tensor of indices. *)
Definition gather (thresholds : list Q) (pred : list nat) : result (list Q) :=
  mapM (fun p => of_option IndexError (nth_error thresholds p)) pred.

(** [ll_[:, label_id]]. *)
Definition column (label_id : nat) (rows : list (list Q)) : result (list Q) :=
  mapM (fun r => of_option IndexError (nth_error r label_id)) rows.

(** Elementwise binary operation on two tensors of one shape. *)
Fixpoint map2 {A B C : Type} (f : A -> B -> C) (l1 : list A) (l2 : list B) : list C :=
  match l1, l2 with
  | a :: l1', b :: l2' => f a b :: map2 f l1' l2'
  | _, _ => []
  end.

(** [mask.sum().item()]. *)
Definition count_true (mask : list bool) : nat :=
  length (filter (fun b => b) mask).

(** [DataLoader(dataset, batch_size, shuffle=False)]: consecutive batches of
    [batch_size] samples, the last one possibly shorter; a batch size that is
    not positive is refused. *)
Fixpoint batches_fuel {A : Type} (fuel batch_size : nat) (l : list A) : list (list A) :=
  match fuel with
  | 0 => []
  | S fuel' =>
      match l with
      | [] => []
      | _ => firstn batch_size l :: batches_fuel fuel' batch_size (skipn batch_size l)
      end
  end.

Definition DataLoader {A : Type} (dataset : list A) (batch_size : nat)
  : result (list (list A)) :=
  if batch_size =? 0 then Raise ValueError
  else Ok (batches_fuel (length dataset) batch_size dataset).

(** Hyperparameters read by the two scripts. *)
Record hparams : Type := {
  n_classes : nat;
  n_batch_test : nat;
  percentile : Q
}.

(** ** Threshold calibration *)

(** Lines 89-90 of [eval_robustness.py], 76-79 of [eval_adv.py]:
    [thresh_idx = int(p * len(in_ll_list))],
    [thresh = sorted(in_ll_list)[thresh_idx]]. *)
Definition thresh_idx (p : Q) (in_ll_list : list Q) : Z :=
  py_int (p * inject_Z (Z.of_nat (length in_ll_list)))%Q.

Definition thresh (p : Q) (in_ll_list : list Q) : result Q :=
  py_getitem (sorted in_ll_list) (thresh_idx p in_ll_list).

(** [a != b] on two 1-d tensors, with torch's broadcasting of a tensor of one
    element; other shape mismatches are refused. *)
Definition tensor_ne (a b : list nat) : result (list bool) :=
  if length a =? length b then Ok (map2 (fun p q => negb (p =? q)) a b)
  else match a, b with
       | [p], _ => Ok (map (fun q => negb (p =? q)) b)
       | _, [q] => Ok (map (fun p => negb (p =? q)) a)
       | _, _ => Raise RuntimeError
       end.

(** [data[lo:hi]] for [0 <= lo <= hi]. *)
Definition py_slice {A : Type} (l : list A) (lo hi : nat) : list A :=
  firstn (hi - lo) (skipn lo l).

Section Evaluation.

(** Inputs (images) and the model under evaluation: [model x] is the score
    vector (log-likelihoods, one per class) of one input. *)
Variable X : Type.
Variable model : X -> list Q.

(** The image transform ([ToTensor] and [Normalize]) given to
    [CorruptionDataset], and the attack oracle ([DeepFool.generate]). *)
Variable transform : X -> X.
Variable generate : list X -> list X.

(** A labelled sample. *)
Local Abbreviation sample := (X * nat)%type.

(** Modelled from the spec: [utils.get_dataset] is not part of the sources;
    with [label_id] it selects the clean samples whose true label is
    [label_id]. *)
Definition get_dataset (data : list sample) (label_id : nat) : list sample :=
  filter (fun s => snd s =? label_id) data.

(** Body of the inner calibration loop (one batch): the scores at [label_id]
    of the samples of the batch that the model classifies correctly. *)
Definition collect_batch (label_id : nat) (batch : list sample) : result (list Q) :=
  let x := map fst batch in
  let y := map snd batch in
  let ll := map model x in
  am <- mapM argmax ll ;;
  let correct_idx := map2 Nat.eqb am y in
  let ll_ := mask_select correct_idx ll in
  column label_id ll_.

(** [for batch_id, (x, y) in enumerate(in_test_loader): ... in_ll_list += ...] *)
Fixpoint collect_scores (label_id : nat) (loader : list (list sample))
  (in_ll_list : list Q) : result (list Q) :=
  match loader with
  | [] => Ok in_ll_list
  | batch :: loader' =>
      s <- collect_batch label_id batch ;;
      collect_scores label_id loader' (in_ll_list ++ s)
  end.

Definition class_scores (hps : hparams) (train : list sample) (label_id : nat)
  : result (list Q) :=
  let dataset := get_dataset train label_id in
  in_test_loader <- DataLoader dataset (n_batch_test hps) ;;
  collect_scores label_id in_test_loader [].

(** ** [eval_robustness.py] *)

(** Lines 72-92: one threshold per class, at [hps.percentile]. *)
Definition get_thresholds (hps : hparams) (train : list sample) : result (list Q) :=
  mapM (fun label_id =>
          in_ll_list <- class_scores hps train label_id ;;
          thresh (percentile hps) in_ll_list)
       (seq 0 (n_classes hps)).

(** The masks of one batch (lines 121-123). *)
Record decision : Type := {
  d_values : list Q;
  d_pred : list nat;
  d_thr : list Q;
  confidence_idx : list bool;
  reject_idx : list bool
}.

Definition decide (thresholds : list Q) (log_lik : list (list Q)) : result decision :=
  vp <- mapM row_max log_lik ;;
  let values := map fst vp in
  let pred := map snd vp in
  thr <- gather thresholds pred ;;
  Ok {| d_values := values;
        d_pred := pred;
        d_thr := thr;
        confidence_idx := map2 Qgeb values thr;
        reject_idx := map2 Qltb values thr |}.

Record counters : Type := {
  n_correct : nat;
  n_false : nat;
  n_reject : nat
}.

(** Lines 125-127: what one batch adds to the counters. *)
Definition batch_counts (d : decision) (target : list nat) : counters :=
  let p := mask_select (confidence_idx d) (d_pred d) in
  let t := mask_select (confidence_idx d) target in
  {| n_correct := count_true (map2 Nat.eqb p t);
     n_false := count_true (map2 (fun a b => negb (a =? b)) p t);
     n_reject := count_true (reject_idx d) |}.

(** Lines 114-127: the loop over the batches of one slice. *)
Fixpoint slice_loop (thresholds : list Q) (test_loader : list (list sample))
  (c : counters) : result counters :=
  match test_loader with
  | [] => Ok c
  | batch :: test_loader' =>
      let x := map fst batch in
      let target := map snd batch in
      let log_lik := map model x in
      d <- decide thresholds log_lik ;;
      let b := batch_counts d target in
      slice_loop thresholds test_loader'
        {| n_correct := n_correct c + n_correct b;
           n_false := n_false c + n_false b;
           n_reject := n_reject c + n_reject b |}
  end.

Definition interval : nat := 100 * 100.

(** What is printed for one (corruption type, severity) slice. *)
Record slice_stats : Type := {
  s_counters : counters;
  s_n : nat;
  acc : Q;
  false_rate : Q;
  reject_rate : Q;
  acc_remain : Q
}.

Definition Qnat (n : nat) : Q := inject_Z (Z.of_nat n).

(** [CorruptionDataset(x, y, transform)]: the constructor asserts that both
    arrays have the same number of rows. *)
Definition CorruptionDataset (x : list X) (y : list nat) : result (list sample) :=
  if length x =? length y then Ok (combine (map transform x) y)
  else Raise AssertionError.

(** Lines 104-129: the slice of one severity, its counters and its size. *)
Definition slice_counts (hps : hparams) (thresholds : list Q)
  (data : list X) (labels : list nat) (severity : nat) : result (counters * nat) :=
  let x_severity := py_slice data (severity * interval) ((severity + 1) * interval) in
  let y_severity := py_slice labels (severity * interval) ((severity + 1) * interval) in
  dataset <- CorruptionDataset x_severity y_severity ;;
  test_loader <- DataLoader dataset (n_batch_test hps) ;;
  c <- slice_loop thresholds test_loader
         {| n_correct := 0; n_false := 0; n_reject := 0 |} ;;
  let n := length dataset in
  Ok (c, n).

(** Lines 130-132. *)
Definition slice_rates (c : counters) (n : nat) : result (Q * Q * Q) :=
  acc <- py_div (Qnat (n_correct c)) (Qnat n) ;;
  false_rate <- py_div (Qnat (n_false c)) (Qnat n) ;;
  reject_rate <- py_div (Qnat (n_reject c)) (Qnat n) ;;
  Ok (acc, false_rate, reject_rate).

(** Lines 104-137: the body of the severity loop; the statistics are printed
    once all four are computed. *)
Definition eval_severity (hps : hparams) (thresholds : list Q)
  (data : list X) (labels : list nat) (severity : nat) : result slice_stats :=
  '(c, n) <- slice_counts hps thresholds data labels severity ;;
  '(acc, false_rate, reject_rate) <- slice_rates c n ;;
  acc_remain <- py_div acc (acc + false_rate)%Q ;;
  Ok {| s_counters := c; s_n := n; acc := acc; false_rate := false_rate;
        reject_rate := reject_rate; acc_remain := acc_remain |}.

(** *** The loop over corruption types *)

(** Python values that reach the header of the loop over [get_c_dataset()]:
    a file name, an array of images, an array of labels, the tuples built from
    them, and what iterating over an array gives. *)
#[warnings="-register-all"]
Inductive pyval : Type :=
| PStr (s : string)
| PImages (d : list X)
| PLabels (l : list nat)
| PTuple (vs : list pyval)
| PImage (x : X)
| PInt (n : nat).

(** Iterating over an image array gives its sub-arrays. *)
Variable image_rows : X -> list X.

Fixpoint chars (s : string) : list string :=
  match s with
  | EmptyString => []
  | String c s' => String c EmptyString :: chars s'
  end.

(** [iter(v)]. *)
Definition py_iter (v : pyval) : result (list pyval) :=
  match v with
  | PStr s => Ok (map PStr (chars s))
  | PImages d => Ok (map PImage d)
  | PLabels l => Ok (map PInt l)
  | PTuple vs => Ok vs
  | PImage x => Ok (map PImage (image_rows x))
  | PInt _ => Raise TypeError
  end.

(** [get_c_dataset]: one triple [(name, np.load(file), y)] per corruption file,
    all with the labels [y] of [labels.npy]. *)
Definition get_c_dataset (files : list (string * list X)) (y : list nat) : list pyval :=
  map (fun file => PTuple [PStr (fst file); PImages (snd file); PLabels y]) files.

(** The loop header
    [for corruption_id, (corruption_type, data, labels) in get_c_dataset():]
    unpacks each yielded value into two targets, and the second of them into
    three. *)
Definition loop_header (item : pyval) : result (pyval * pyval * pyval * pyval) :=
  targets <- py_iter item ;;
  match targets with
  | [corruption_id; inner] =>
      inner_targets <- py_iter inner ;;
      match inner_targets with
      | [corruption_type; data; labels] =>
          Ok (corruption_id, corruption_type, data, labels)
      | _ => Raise ValueError
      end
  | _ => Raise ValueError
  end.

(** The loop body is written for an array of images and an array of labels;
    on any other value it fails with a dynamic type error. *)
Definition as_images (v : pyval) : result (list X) :=
  match v with
  | PImages d => Ok d
  | _ => Raise TypeError
  end.

Definition as_labels (v : pyval) : result (list nat) :=
  match v with
  | PLabels l => Ok l
  | _ => Raise TypeError
  end.

(** How a run ends: [exit(0)] or an uncaught exception. *)
Inductive outcome : Type :=
| Exit0
| Uncaught (e : pyerr).

(** Lines 103-137: [for severity in range(5)], with the statistics printed so
    far. *)
Fixpoint severity_loop (hps : hparams) (thresholds : list Q)
  (data : list X) (labels : list nat) (severities : list nat)
  (printed : list slice_stats) : list slice_stats * option pyerr :=
  match severities with
  | [] => (printed, None)
  | severity :: severities' =>
      match eval_severity hps thresholds data labels severity with
      | Ok st => severity_loop hps thresholds data labels severities' (printed ++ [st])
      | Raise e => (printed, Some e)
      end
  end.

(** Lines 100-140: the first corruption type, then [exit(0)]. With no
    corruption type at all line 140 reads names that were never bound. *)
Definition corruption_loop (hps : hparams) (thresholds : list Q)
  (c_dataset : list pyval) : list slice_stats * outcome :=
  match c_dataset with
  | [] => ([], Uncaught UnboundLocalError)
  | item :: _ =>
      match loop_header item with
      | Raise e => ([], Uncaught e)
      | Ok (_, _, data, labels) =>
          match (d <- as_images data ;; l <- as_labels labels ;; Ok (d, l)) with
          | Raise e => ([], Uncaught e)
          | Ok (d, l) =>
              match severity_loop hps thresholds d l (seq 0 5) [] with
              | (printed, Some e) => (printed, Uncaught e)
              | (printed, None) => (printed, Exit0)
              end
          end
      end
  end.

Definition inference_rejection (hps : hparams) (train : list sample)
  (files : list (string * list X)) (y : list nat) : list slice_stats * outcome :=
  match get_thresholds hps train with
  | Raise e => ([], Uncaught e)
  | Ok thresholds => corruption_loop hps thresholds (get_c_dataset files y)
  end.

(** ** [eval_adv.py] *)

(** Lines 59-82: two thresholds per class, at the 1st and 2nd percentile. *)
Definition adv_thresholds (hps : hparams) (train : list sample)
  : result (list Q * list Q) :=
  ts <- mapM (fun label_id =>
                in_ll_list <- class_scores hps train label_id ;;
                thresh1 <- thresh (1 # 100) in_ll_list ;;
                thresh2 <- thresh (2 # 100) in_ll_list ;;
                Ok (thresh1, thresh2))
             (seq 0 (n_classes hps)) ;;
  Ok (map fst ts, map snd ts).

Record adv_counters : Type := {
  n_eval : nat;
  n_successful_adv : nat;
  n_rejected_adv1 : nat;
  n_rejected_adv2 : nat
}.

(** What the evaluated batch keeps and computes (lines 113-136). *)
Record adv_batch : Type := {
  b_correct_idx : list bool;
  b_x : list X;
  b_y : list nat;
  b_adv_x : list X;
  b_logits : list Q;
  b_preds : list nat;
  b_success_idx : list bool;
  b_rej_idx1 : list bool;
  b_rej_idx2 : list bool
}.

Definition adv_eval_batch (thresholds1 thresholds2 : list Q) (batch : list sample)
  : result adv_batch :=
  let x := map fst batch in
  let y := map snd batch in
  let output := map model x in
  pred <- mapM argmax output ;;
  let correct_idx := map2 Nat.eqb pred y in
  let x := mask_select correct_idx x in
  let y := mask_select correct_idx y in
  let adv_x := generate x in
  let output := map model adv_x in
  lp <- mapM row_max output ;;
  let logits := map fst lp in
  let preds := map snd lp in
  success_idx <- tensor_ne preds y ;;
  thr1 <- gather thresholds1 preds ;;
  let rej_idx1 := map2 Qltb logits thr1 in
  thr2 <- gather thresholds2 preds ;;
  let rej_idx2 := map2 Qltb logits thr2 in
  Ok {| b_correct_idx := correct_idx; b_x := x; b_y := y; b_adv_x := adv_x;
        b_logits := logits; b_preds := preds; b_success_idx := success_idx;
        b_rej_idx1 := rej_idx1; b_rej_idx2 := rej_idx2 |}.

Definition adv_batch_counters (b : adv_batch) : adv_counters :=
  {| n_eval := count_true (b_correct_idx b);
     n_successful_adv := count_true (b_success_idx b);
     n_rejected_adv1 := count_true (b_rej_idx1 b);
     n_rejected_adv2 := count_true (b_rej_idx2 b) |}.

(** Lines 111-139: the loop over the test batches leaves after its first
    iteration ([break]). *)
Definition adv_loop (thresholds1 thresholds2 : list Q)
  (test_loader : list (list sample)) : result adv_counters :=
  match test_loader with
  | [] => Ok {| n_eval := 0; n_successful_adv := 0;
                n_rejected_adv1 := 0; n_rejected_adv2 := 0 |}
  | batch :: _ =>
      b <- adv_eval_batch thresholds1 thresholds2 batch ;;
      Ok (adv_batch_counters b)
  end.

(** What the run prints at its end. *)
Record adv_stats : Type := {
  a_counters : adv_counters;
  reject_rate1 : Q;
  reject_rate2 : Q;
  success_adv_rate : Q
}.

(** Lines 141-143. *)
Definition adv_rates (c : adv_counters) : result adv_stats :=
  reject_rate1 <- py_div (Qnat (n_rejected_adv1 c)) (Qnat (n_successful_adv c)) ;;
  reject_rate2 <- py_div (Qnat (n_rejected_adv2 c)) (Qnat (n_successful_adv c)) ;;
  success_adv_rate <- py_div (Qnat (n_successful_adv c)) (Qnat (n_eval c)) ;;
  Ok {| a_counters := c; reject_rate1 := reject_rate1;
        reject_rate2 := reject_rate2; success_adv_rate := success_adv_rate |}.

Definition attack_run_rejection_policy (hps : hparams)
  (train test : list sample) : result adv_stats :=
  '(thresholds1, thresholds2) <- adv_thresholds hps train ;;
  test_loader <- DataLoader test (n_batch_test hps) ;;
  c <- adv_loop thresholds1 thresholds2 test_loader ;;
  adv_rates c.

End Evaluation.

Arguments get_dataset {X} data label_id.
Arguments collect_batch {X} model label_id batch.
Arguments collect_scores {X} model label_id loader in_ll_list.
Arguments class_scores {X} model hps train label_id.
Arguments get_thresholds {X} model hps train.
Arguments slice_loop {X} model thresholds test_loader c.
Arguments CorruptionDataset {X} transform x y.
Arguments slice_counts {X} model transform hps thresholds data labels severity.
Arguments eval_severity {X} model transform hps thresholds data labels severity.
Arguments severity_loop {X} model transform hps thresholds data labels severities printed.
Arguments PStr {X} s.
Arguments PImages {X} d.
Arguments PLabels {X} l.
Arguments PTuple {X} vs.
Arguments PImage {X} x.
Arguments PInt {X} n.
Arguments py_iter {X} image_rows v.
Arguments get_c_dataset {X} files y.
Arguments loop_header {X} image_rows item.
Arguments as_images {X} v.
Arguments as_labels {X} v.
Arguments corruption_loop {X} model transform image_rows hps thresholds c_dataset.
Arguments inference_rejection {X} model transform image_rows hps train files y.
Arguments adv_thresholds {X} model hps train.
Arguments adv_eval_batch {X} model generate thresholds1 thresholds2 batch.
Arguments b_correct_idx {X} a.
Arguments b_x {X} a.
Arguments b_y {X} a.
Arguments b_adv_x {X} a.
Arguments b_logits {X} a.
Arguments b_preds {X} a.
Arguments b_success_idx {X} a.
Arguments b_rej_idx1 {X} a.
Arguments b_rej_idx2 {X} a.
Arguments adv_batch_counters {X} b.
Arguments adv_loop {X} model generate thresholds1 thresholds2 test_loader.
Arguments attack_run_rejection_policy {X} model generate hps train test.

(** ** The specification's vocabulary *)

(** A clean sample is classified correctly when the argmax of its score
    vector is its true label. *)
Definition spec_classified_correctly {X : Type} (model : X -> list Q) (s : X * nat) : bool :=
  match argmax (model (fst s)) with
  | Ok a => a =? snd s
  | Raise _ => false
  end.

Definition spec_score_at {X : Type} (model : X -> list Q) (c : nat) (s : X * nat) : Q :=
  nth c (model (fst s)) 0%Q.

(** The collection [S_c] of the specification: the scores at index [c] of the
    clean samples of true label [c] that the model classifies correctly. *)
Definition spec_S_c {X : Type} (model : X -> list Q) (train : list (X * nat)) (c : nat)
  : list Q :=
  map (spec_score_at model c)
      (filter (fun s => (snd s =? c) && spec_classified_correctly model s) train).

(** [t] is the [k]-th smallest element of [l], 0-indexed: the entry of rank
    [k] of an ascending arrangement of [l]. *)
Definition spec_kth_smallest (k : nat) (l : list Q) (t : Q) : Prop :=
  exists l', Permutation l l' /\ StronglySorted Qle l' /\ nth_error l' k = Some t.



(** The rank the specification asks for: [k = floor (percentile * |S_c|)]. *)
Definition spec_rank (p : Q) (S : list Q) : nat :=
  Z.to_nat (Qfloor (p * inject_Z (Z.of_nat (length S)))).

(** Positions of a batch where a mask holds. *)
Fixpoint indices_from (i : nat) (mask : list bool) : list nat :=
  match mask with
  | [] => []
  | b :: mask' => if b then i :: indices_from (S i) mask' else indices_from (S i) mask'
  end.

Definition where_true (mask : list bool) : list nat := indices_from 0 mask.

(** The three sets of a rejection decision, as sets of positions in the
    batch: accepted and correct, accepted and incorrect, rejected. *)
Definition spec_accept_correct (d : decision) (target : list nat) : list nat :=
  where_true (map2 andb (confidence_idx d) (map2 Nat.eqb (d_pred d) target)).

Definition spec_accept_incorrect (d : decision) (target : list nat) : list nat :=
  where_true (map2 andb (confidence_idx d)
                (map2 (fun a b => negb (a =? b)) (d_pred d) target)).

Definition spec_reject (d : decision) : list nat := where_true (reject_idx d).

(** ** The remaining functions of the two scripts *)

(** *** [CorruptionDataset] (lines 38-57 of [eval_robustness.py]) as a class:
    constructor, [__getitem__] and [__len__]. Indexing a numpy array by an
    integer follows the rule of Python lists. *)

Record corruption_dataset (X : Type) : Type := {
  cd_x : list X;
  cd_y : list nat;
  cd_transform : option (X -> X)
}.

Arguments cd_x {X} c.
Arguments cd_y {X} c.
Arguments cd_transform {X} c.

Definition CorruptionDataset_init {X : Type} (x : list X) (y : list nat)
  (transform : option (X -> X)) : result (corruption_dataset X) :=
  if length x =? length y
  then Ok {| cd_x := x; cd_y := y; cd_transform := transform |}
  else Raise AssertionError.

Definition CorruptionDataset_getitem {X : Type} (self : corruption_dataset X) (item : Z)
  : result (X * nat) :=
  sample <- py_getitem (cd_x self) item ;;
  let sample := match cd_transform self with
                | Some transform => transform sample
                | None => sample
                end in
  y <- py_getitem (cd_y self) item ;;
  Ok (sample, y).

Definition CorruptionDataset_len {X : Type} (self : corruption_dataset X) : nat :=
  length (cd_x self).

(** *** [get_c_dataset] (lines 29-35) on a directory listing *)

(** [file.split('.')[0]]: what precedes the first dot. *)
Fixpoint before_dot (file : string) : string :=
  match file with
  | EmptyString => EmptyString
  | String c file' =>
      if Ascii.eqb c "."%char then EmptyString else String c (before_dot file')
  end.

Definition starts_with_sep (s : string) : bool :=
  match s with
  | String c _ => Ascii.eqb c "/"%char
  | EmptyString => false
  end.

Fixpoint ends_with_sep (s : string) : bool :=
  match s with
  | EmptyString => false
  | String c EmptyString => Ascii.eqb c "/"%char
  | String _ s' => ends_with_sep s'
  end.

(** Whether a path has a separator, that is, names a file outside the
    directory it is resolved in. *)
Fixpoint has_sep (s : string) : bool :=
  match s with
  | EmptyString => false
  | String c s' => Ascii.eqb c "/"%char || has_sep s'
  end.

(** Whether a name has a dot. *)
Fixpoint has_dot (s : string) : bool :=
  match s with
  | EmptyString => false
  | String c s' => Ascii.eqb c "."%char || has_dot s'
  end.

(** [os.path.join(a, b)] (posix). *)
Definition os_path_join (a b : string) : string :=
  if starts_with_sep b then b
  else match a with
       | EmptyString => b
       | _ => if ends_with_sep a then (a ++ b)%string else (a ++ "/" ++ b)%string
       end.

(** What a [.npy] file holds here: an array of images or an array of
    labels. *)
Inductive npy (X : Type) : Type :=
| NpImages (d : list X)
| NpLabels (l : list nat).

Arguments NpImages {X} d.
Arguments NpLabels {X} l.

Definition npy_val {X : Type} (a : npy X) : pyval X :=
  match a with
  | NpImages d => PImages d
  | NpLabels l => PLabels l
  end.

(** One step of the generator: a yielded value, or the [FileNotFoundError] of
    [np.load], which ends the generator. *)
Inductive gen_step (X : Type) : Type :=
| Yield (v : pyval X)
| FileNotFound (path : string).

Arguments Yield {X} v.
Arguments FileNotFound {X} path.

(** The loop [for file in files: yield file.split('.')[0], np.load(file), y];
    [np_load path] is the content of the file at [path], resolved as the
    process resolves it, or [None] when there is no such file. *)
Fixpoint yield_files {X : Type} (np_load : string -> option (npy X)) (y : pyval X)
  (files : list string) : list (gen_step X) :=
  match files with
  | [] => []
  | file :: files' =>
      match np_load file with
      | None => [FileNotFound file]
      | Some a =>
          Yield (PTuple [PStr (before_dot file); npy_val a; y])
          :: yield_files np_load y files'
      end
  end.

(** [get_c_dataset(dir)], given [listdir(dir)]. *)
Definition get_c_dataset_dir {X : Type} (listdir : list string)
  (np_load : string -> option (npy X)) (dir : string) : list (gen_step X) :=
  let files := filter (fun file => negb (String.eqb file "labels.npy")) listdir in
  match np_load (os_path_join dir "labels.npy") with
  | None => [FileNotFound (os_path_join dir "labels.npy")]
  | Some y => yield_files np_load (npy_val y) files
  end.

(** *** Loading checkpoints (lines 22-43 of [eval_adv.py], 19-26 and 64-67 of
    [eval_robustness.py]) *)

Inductive classifier_arch : Type :=
| ResNeXt
| ResNet34.

Inductive load_error : Type :=
| FileNotFoundError (path : string)
| KeyError (key : string)
| UnboundLocal (name : string).

(** A checkpoint file holds a dict from keys to saved states. *)
Fixpoint dict_get {W : Type} (d : list (string * W)) (key : string) : option W :=
  match d with
  | [] => None
  | (k, w) :: d' => if String.eqb k key then Some w else dict_get d' key
  end.

(** ['SDIM_{}_{}.pth'.format(classifier_name, problem)] under [log_dir]. *)
Definition sdim_checkpoint_path (log_dir classifier_name problem : string) : string :=
  os_path_join log_dir ("SDIM_" ++ classifier_name ++ "_" ++ problem ++ ".pth")%string.

Section Checkpoints.

(** Saved states, and [torch.load] as the content of the file at a path. *)
Variable W : Type.
Variable torch_load : string -> option (list (string * W)).

(** [load_pretrained_sdim] of [eval_adv.py]: the architecture it builds and
    the state it hands to [load_state_dict]. An unknown classifier name only
    prints a message; the next line then reads [classifier]. *)
Definition load_pretrained_sdim (log_dir classifier_name problem : string)
  : load_error + classifier_arch * W :=
  let classifier :=
    if String.eqb classifier_name "resnext" then Some ResNeXt
    else if String.eqb classifier_name "resnet" then Some ResNet34
         else None in
  match classifier with
  | None => inl (UnboundLocal "classifier")
  | Some arch =>
      let checkpoint_path := sdim_checkpoint_path log_dir classifier_name problem in
      match torch_load checkpoint_path with
      | None => inl (FileNotFoundError checkpoint_path)
      | Some checkpoint =>
          match dict_get checkpoint "model_state" with
          | None => inl (KeyError "model_state")
          | Some state => inr (arch, state)
          end
      end
  end.

(** Lines 64-67 of [inference_rejection]: the state handed to
    [sdim.load_state_dict]. *)
Definition inference_rejection_load (log_dir classifier_name problem : string)
  : load_error + W :=
  let checkpoint_path := sdim_checkpoint_path log_dir classifier_name problem in
  match torch_load checkpoint_path with
  | None => inl (FileNotFoundError checkpoint_path)
  | Some checkpoint =>
      match dict_get checkpoint "state" with
      | None => inl (KeyError "state")
      | Some state => inr state
      end
  end.

End Checkpoints.

Arguments load_pretrained_sdim {W} torch_load log_dir classifier_name problem.
Arguments inference_rejection_load {W} torch_load log_dir classifier_name problem.

(** *** [inference_rejection] from the files on disk

    [inference_rejection] above starts from the calibration, with the
    corruption arrays already loaded. The function below is the whole of
    lines 60-140: the checkpoint read (lines 64-67), the calibration, and
    the loop over the generator [get_c_dataset()], which lists the directory
    and loads the labels and the first corruption file when the loop asks for
    its first item. [model] stands for [sdim] once the state is loaded;
    [listdir] is the listing of [dir], or [None] when there is no such
    directory. *)

Inductive run_end : Type :=
| EndExit0
| EndLoad (e : load_error)
| EndFileNotFound (path : string)
| EndPy (e : pyerr).

Section WholeRun.

Variable X : Type.
Variable W : Type.
Variable model : X -> list Q.
Variable transform : X -> X.
Variable image_rows : X -> list X.
Variable torch_load : string -> option (list (string * W)).
Variable np_load : string -> option (npy X).

Definition inference_rejection_run (log_dir classifier_name problem : string)
  (hps : hparams) (train : list (X * nat))
  (listdir : option (list string)) (dir : string) : list slice_stats * run_end :=
  match inference_rejection_load torch_load log_dir classifier_name problem with
  | inl e => ([], EndLoad e)
  | inr _ =>
      match get_thresholds model hps train with
      | Raise e => ([], EndPy e)
      | Ok thresholds =>
          match listdir with
          | None => ([], EndFileNotFound dir)
          | Some names =>
              match get_c_dataset_dir names np_load dir with
              | [] => ([], EndPy UnboundLocalError)
              | FileNotFound path :: _ => ([], EndFileNotFound path)
              | Yield item :: _ =>
                  match corruption_loop model transform image_rows hps thresholds
                                        [item] with
                  | (printed, Exit0) => (printed, EndExit0)
                  | (printed, Uncaught e) => (printed, EndPy e)
                  end
              end
          end
      end
  end.

End WholeRun.

Arguments inference_rejection_run {X W} model transform image_rows torch_load np_load
  log_dir classifier_name problem hps train listdir dir.

(** ** Sample-wise reading of the batch computations

    The scripts work on whole batches; the functions below say what the same
    computation is for one sample. *)

(** The top score of a score vector and the class that reaches it. *)
Definition row_value (row : list Q) : Q :=
  match row_max row with
  | Ok (v, _) => v
  | Raise _ => 0%Q
  end.

Definition row_pred (row : list Q) : nat :=
  match row_max row with
  | Ok (_, p) => p
  | Raise _ => 0
  end.

Definition row_nonempty (row : list Q) : bool :=
  match row with
  | [] => false
  | _ => true
  end.

(** A score vector the rejection decision can handle: it is not empty and its
    predicted class has a threshold. *)
Definition row_in_range (thresholds : list Q) (row : list Q) : bool :=
  match row_max row with
  | Ok (_, p) => p <? length thresholds
  | Raise _ => false
  end.

Definition row_threshold (thresholds : list Q) (row : list Q) : Q :=
  nth (row_pred row) thresholds 0%Q.

Definition sample_rejected (thresholds : list Q) (row : list Q) : bool :=
  Qltb (row_value row) (row_threshold thresholds row).

Definition sample_accepted (thresholds : list Q) (row : list Q) : bool :=
  Qgeb (row_value row) (row_threshold thresholds row).

(** The counters of a list of samples, counted sample by sample. *)
Definition tally {X : Type} (model : X -> list Q) (thresholds : list Q)
  (data : list (X * nat)) : counters :=
  {| n_correct :=
       length (filter (fun s => sample_accepted thresholds (model (fst s)) &&
                                (row_pred (model (fst s)) =? snd s)) data);
     n_false :=
       length (filter (fun s => sample_accepted thresholds (model (fst s)) &&
                                negb (row_pred (model (fst s)) =? snd s)) data);
     n_reject :=
       length (filter (fun s => sample_rejected thresholds (model (fst s))) data) |}.

Definition counters_add (c1 c2 : counters) : counters :=
  {| n_correct := n_correct c1 + n_correct c2;
     n_false := n_false c1 + n_false c2;
     n_reject := n_reject c1 + n_reject c2 |}.

(** A clean sample that calibration for class [c] can handle: its score
    vector is not empty and, if it is classified correctly, reaches index
    [c]. *)
Definition sample_scored {X : Type} (model : X -> list Q) (c : nat) (s : X * nat) : bool :=
  match argmax (model (fst s)) with
  | Ok a => if a =? snd s then c <? length (model (fst s)) else true
  | Raise _ => false
  end.

(** * Binary64 scores: rounding and NaN

    The definitions above read scores and rates as exact rationals. The
    module below follows the same lines of the two scripts on binary64
    values, for the properties that depend on rounding or on NaN: the index
    [int(percentile * len)], [sorted] on a list that holds a NaN, the two
    masks [>=] and [<], and the printed rates. *)

Module IEEE.

(** A binary64 value is a finite number (given by its exact value), an
    infinity, or NaN. float32 tensor entries are binary64 values as well, and
    compare as such. The sign of zero is not kept: comparisons, [int],
    [sorted] and the zero test of Python's division do not see it. *)
Inductive f64 : Type :=
| Fin (q : Q)
| PInf
| NInf
| NaN.

Definition is_nan (a : f64) : bool :=
  match a with
  | NaN => true
  | _ => false
  end.

(** [a < b], [a <= b] and [a >= b]: every comparison with a NaN is false. *)
Definition ltb (a b : f64) : bool :=
  match a, b with
  | NaN, _ | _, NaN => false
  | Fin x, Fin y => Qltb x y
  | _, NInf => false
  | NInf, _ => true
  | PInf, _ => false
  | _, PInf => true
  end.

Definition leb (a b : f64) : bool :=
  match a, b with
  | NaN, _ | _, NaN => false
  | Fin x, Fin y => Qle_bool x y
  | NInf, _ => true
  | _, PInf => true
  | _, _ => false
  end.

Definition geb (a b : f64) : bool := leb b a.

(** *** Rounding to nearest, ties to even *)

Definition pow2 (e : Z) : Q := Qpower 2 e.

(** For [0 < x]: the exponent [e] with [2^e <= x < 2^(e+1)]. *)
Definition ilog2 (x : Q) : Z :=
  let d := (Z.log2 (Qnum x) - Z.log2 (Zpos (Qden x)))%Z in
  if Qle_bool (pow2 d) x then d else (d - 1)%Z.

(** The integer nearest to [m], the even one on a tie. *)
Definition rne (m : Q) : Z :=
  let f := Qfloor m in
  match Qcompare (m - inject_Z f) (1 # 2) with
  | Lt => f
  | Gt => (f + 1)%Z
  | Eq => if Z.even f then f else (f + 1)%Z
  end.

(** The exponent of the last place of a binary64 number near [x]: 53
    significant bits, subnormal below [2^-1022]. *)
Definition qexp (x : Q) : Z := Z.max (ilog2 x - 52) (-1074).

(** [x] rounded to a multiple of [2^qexp x]. *)
Definition raw (x : Q) : Q := (inject_Z (rne (x / pow2 (qexp x))) * pow2 (qexp x))%Q.

Definition round_pos (x : Q) : f64 :=
  if Qle_bool (pow2 1024) (raw x) then PInf else Fin (Qred (raw x)).

Definition fneg (a : f64) : f64 :=
  match a with
  | Fin q => Fin (- q)
  | PInf => NInf
  | NInf => PInf
  | NaN => NaN
  end.

(** The binary64 value nearest to the real number [x]: the result of an
    arithmetic operation whose exact result is [x], and the value of a
    decimal literal. *)
Definition round64 (x : Q) : f64 :=
  match Qcompare x 0 with
  | Eq => Fin 0
  | Gt => round_pos x
  | Lt => fneg (round_pos (- x))
  end.

(** [float(n)] for a Python int. *)
Definition float_of_nat (n : nat) : f64 := round64 (Qnat n).

(** [a * b] and [a + b] on floats. *)
Definition fmul (a b : f64) : f64 :=
  match a, b with
  | NaN, _ | _, NaN => NaN
  | Fin x, Fin y => round64 (x * y)
  | Fin x, PInf | PInf, Fin x =>
      match Qcompare x 0 with
      | Eq => NaN
      | Gt => PInf
      | Lt => NInf
      end
  | Fin x, NInf | NInf, Fin x =>
      match Qcompare x 0 with
      | Eq => NaN
      | Gt => NInf
      | Lt => PInf
      end
  | PInf, PInf | NInf, NInf => PInf
  | PInf, NInf | NInf, PInf => NInf
  end.

Definition fadd (a b : f64) : f64 :=
  match a, b with
  | NaN, _ | _, NaN => NaN
  | Fin x, Fin y => round64 (x + y)
  | PInf, NInf | NInf, PInf => NaN
  | PInf, _ | _, PInf => PInf
  | NInf, _ | _, NInf => NInf
  end.

(** [a / b] on Python numbers: a zero divisor raises, everything else is the
    binary64 quotient. *)
Definition py_div (a b : f64) : result f64 :=
  match b with
  | NaN => Ok NaN
  | Fin y =>
      if Qeq_bool y 0 then Raise ZeroDivisionError
      else Ok match a with
              | Fin x => round64 (x / y)
              | NaN => NaN
              | PInf => if Qltb 0 y then PInf else NInf
              | NInf => if Qltb 0 y then NInf else PInf
              end
  | PInf | NInf =>
      Ok match a with
         | Fin _ => Fin 0
         | _ => NaN
         end
  end.

(** [int(a)] on a float: truncation toward zero; NaN and the infinities are
    refused. *)
Definition py_int (a : f64) : result Z :=
  match a with
  | Fin q => Ok (Z.quot (Qnum q) (Zpos (Qden q)))
  | NaN => Raise ValueError
  | PInf | NInf => Raise OverflowError
  end.

(** *** [sorted]

    CPython's list sort asks only [<]. On a list of fewer than 64 elements it
    takes the run the list starts with (reversed if strictly descending) and
    inserts the remaining elements one by one by binary search; this is
    followed here step by step, so that the arrangement of a list holding a
    NaN is the one Python returns. Longer lists are merged from such runs;
    for them the function below gives Python's result when no element is a
    NaN, the ascending stable arrangement. *)

Fixpoint run_descending (prev : f64) (l : list f64) : list f64 * list f64 :=
  match l with
  | [] => ([], [])
  | x :: l' =>
      if ltb x prev then let (run, rest) := run_descending x l' in (x :: run, rest)
      else ([], l)
  end.

Fixpoint run_ascending (prev : f64) (l : list f64) : list f64 * list f64 :=
  match l with
  | [] => ([], [])
  | x :: l' =>
      if ltb x prev then ([], l)
      else let (run, rest) := run_ascending x l' in (x :: run, rest)
  end.

(** [count_run], with the reversal of a descending run: the run, in
    ascending order, and the elements after it. *)
Definition count_run (l : list f64) : list f64 * list f64 :=
  match l with
  | a :: b :: t =>
      if ltb b a then let (run, rest) := run_descending b t in (rev (a :: b :: run), rest)
      else let (run, rest) := run_ascending b t in (a :: b :: run, rest)
  | _ => (l, [])
  end.

(** The binary search of [binarysort]: from [l < r],
    [do p = l + ((r - l) >> 1); if pivot < run[p] then r = p else l = p + 1
     while l < r]. *)
Fixpoint bisect (fuel : nat) (pivot : f64) (run : list f64) (l r : nat) : nat :=
  match fuel with
  | 0 => l
  | S fuel' =>
      let p := l + (r - l) / 2 in
      if ltb pivot (nth p run NaN)
      then if l <? p then bisect fuel' pivot run l p else l
      else if S p <? r then bisect fuel' pivot run (S p) r else S p
  end.

Definition binary_insert (run : list f64) (pivot : f64) : list f64 :=
  match run with
  | [] => [pivot]
  | _ =>
      let k := bisect (length run) pivot run 0 (length run) in
      firstn k run ++ pivot :: skipn k run
  end.

Definition sorted (l : list f64) : list f64 :=
  let (run, rest) := count_run l in fold_left binary_insert rest run.

(** *** torch primitives *)

(** [row.max()] / [row.argmax()]: torch scans the row from its first entry,
    takes every entry that is not [<=] the maximum so far, and stops at a
    NaN. *)
Fixpoint row_max_from (best : f64) (besti i : nat) (row : list f64) : f64 * nat :=
  match row with
  | [] => (best, besti)
  | v :: row' =>
      if leb v best then row_max_from best besti (S i) row'
      else if is_nan v then (v, i)
           else row_max_from v i (S i) row'
  end.

Definition row_max (row : list f64) : result (f64 * nat) :=
  match row with
  | [] => Raise IndexError
  | v :: _ => Ok (row_max_from v 0 0 row)
  end.

Definition argmax (row : list f64) : result nat :=
  '(_, i) <- row_max row ;; Ok i.

Definition gather (thresholds : list f64) (pred : list nat) : result (list f64) :=
  mapM (fun p => of_option IndexError (nth_error thresholds p)) pred.

Definition column (label_id : nat) (rows : list (list f64)) : result (list f64) :=
  mapM (fun r => of_option IndexError (nth_error r label_id)) rows.

Record hparams : Type := {
  n_classes : nat;
  n_batch_test : nat;
  percentile : f64
}.

(** *** Threshold calibration *)

(** [thresh_idx = int(p * len(in_ll_list))]: the product is a binary64
    product. *)
Definition thresh_idx (p : f64) (in_ll_list : list f64) : result Z :=
  py_int (fmul p (float_of_nat (length in_ll_list))).

(** [thresh = sorted(in_ll_list)[thresh_idx]]. *)
Definition thresh (p : f64) (in_ll_list : list f64) : result f64 :=
  k <- thresh_idx p in_ll_list ;;
  py_getitem (sorted in_ll_list) k.

Section Evaluation.

Variable X : Type.
Variable model : X -> list f64.
Variable transform : X -> X.

Local Abbreviation sample := (X * nat)%type.

Definition collect_batch (label_id : nat) (batch : list sample) : result (list f64) :=
  let x := map fst batch in
  let y := map snd batch in
  let ll := map model x in
  am <- mapM argmax ll ;;
  let correct_idx := map2 Nat.eqb am y in
  let ll_ := mask_select correct_idx ll in
  column label_id ll_.

Fixpoint collect_scores (label_id : nat) (loader : list (list sample))
  (in_ll_list : list f64) : result (list f64) :=
  match loader with
  | [] => Ok in_ll_list
  | batch :: loader' =>
      s <- collect_batch label_id batch ;;
      collect_scores label_id loader' (in_ll_list ++ s)
  end.

Definition class_scores (hps : hparams) (train : list sample) (label_id : nat)
  : result (list f64) :=
  let dataset := get_dataset train label_id in
  in_test_loader <- DataLoader dataset (n_batch_test hps) ;;
  collect_scores label_id in_test_loader [].

(** Lines 72-92 of [eval_robustness.py]. *)
Definition get_thresholds (hps : hparams) (train : list sample) : result (list f64) :=
  mapM (fun label_id =>
          in_ll_list <- class_scores hps train label_id ;;
          thresh (percentile hps) in_ll_list)
       (seq 0 (n_classes hps)).

(** Lines 59-82 of [eval_adv.py]; [0.01] and [0.02] are binary64
    literals. *)
Definition adv_thresholds (hps : hparams) (train : list sample)
  : result (list f64 * list f64) :=
  ts <- mapM (fun label_id =>
                in_ll_list <- class_scores hps train label_id ;;
                thresh1 <- thresh (round64 (1 # 100)) in_ll_list ;;
                thresh2 <- thresh (round64 (2 # 100)) in_ll_list ;;
                Ok (thresh1, thresh2))
             (seq 0 (n_classes hps)) ;;
  Ok (map fst ts, map snd ts).

(** *** The rejection decision and the counters of a slice *)

Record decision : Type := {
  d_values : list f64;
  d_pred : list nat;
  d_thr : list f64;
  confidence_idx : list bool;
  reject_idx : list bool
}.

(** Lines 121-123. *)
Definition decide (thresholds : list f64) (log_lik : list (list f64)) : result decision :=
  vp <- mapM row_max log_lik ;;
  let values := map fst vp in
  let pred := map snd vp in
  thr <- gather thresholds pred ;;
  Ok {| d_values := values;
        d_pred := pred;
        d_thr := thr;
        confidence_idx := map2 geb values thr;
        reject_idx := map2 ltb values thr |}.

(** Lines 125-127. *)
Definition batch_counts (d : decision) (target : list nat) : counters :=
  let p := mask_select (confidence_idx d) (d_pred d) in
  let t := mask_select (confidence_idx d) target in
  {| n_correct := count_true (map2 Nat.eqb p t);
     n_false := count_true (map2 (fun a b => negb (a =? b)) p t);
     n_reject := count_true (reject_idx d) |}.

(** Lines 114-127. *)
Fixpoint slice_loop (thresholds : list f64) (test_loader : list (list sample))
  (c : counters) : result counters :=
  match test_loader with
  | [] => Ok c
  | batch :: test_loader' =>
      let x := map fst batch in
      let target := map snd batch in
      let log_lik := map model x in
      d <- decide thresholds log_lik ;;
      let b := batch_counts d target in
      slice_loop thresholds test_loader'
        {| n_correct := n_correct c + n_correct b;
           n_false := n_false c + n_false b;
           n_reject := n_reject c + n_reject b |}
  end.

(** Lines 104-129. *)
Definition slice_counts (hps : hparams) (thresholds : list f64)
  (data : list X) (labels : list nat) (severity : nat) : result (counters * nat) :=
  let x_severity := py_slice data (severity * interval) ((severity + 1) * interval) in
  let y_severity := py_slice labels (severity * interval) ((severity + 1) * interval) in
  dataset <- CorruptionDataset transform x_severity y_severity ;;
  test_loader <- DataLoader dataset (n_batch_test hps) ;;
  c <- slice_loop thresholds test_loader
         {| n_correct := 0; n_false := 0; n_reject := 0 |} ;;
  let n := length dataset in
  Ok (c, n).

Record slice_stats : Type := {
  s_counters : counters;
  s_n : nat;
  acc : f64;
  false_rate : f64;
  reject_rate : f64;
  acc_remain : f64
}.

(** Lines 130-132: binary64 quotients of the counters (counts below [2^53]
    are floats exactly). *)
Definition slice_rates (c : counters) (n : nat) : result (f64 * f64 * f64) :=
  acc <- py_div (float_of_nat (n_correct c)) (float_of_nat n) ;;
  false_rate <- py_div (float_of_nat (n_false c)) (float_of_nat n) ;;
  reject_rate <- py_div (float_of_nat (n_reject c)) (float_of_nat n) ;;
  Ok (acc, false_rate, reject_rate).

(** Lines 104-137. *)
Definition eval_severity (hps : hparams) (thresholds : list f64)
  (data : list X) (labels : list nat) (severity : nat) : result slice_stats :=
  '(c, n) <- slice_counts hps thresholds data labels severity ;;
  '(acc, false_rate, reject_rate) <- slice_rates c n ;;
  acc_remain <- py_div acc (fadd acc false_rate) ;;
  Ok {| s_counters := c; s_n := n; acc := acc; false_rate := false_rate;
        reject_rate := reject_rate; acc_remain := acc_remain |}.

End Evaluation.

Arguments collect_batch {X} model label_id batch.
Arguments collect_scores {X} model label_id loader in_ll_list.
Arguments class_scores {X} model hps train label_id.
Arguments get_thresholds {X} model hps train.
Arguments adv_thresholds {X} model hps train.
Arguments slice_loop {X} model thresholds test_loader c.
Arguments slice_counts {X} model transform hps thresholds data labels severity.
Arguments eval_severity {X} model transform hps thresholds data labels severity.

(** *** The specification's vocabulary on binary64 scores *)

Definition spec_classified_correctly {X : Type} (model : X -> list f64) (s : X * nat)
  : bool :=
  match argmax (model (fst s)) with
  | Ok a => a =? snd s
  | Raise _ => false
  end.

Definition spec_score_at {X : Type} (model : X -> list f64) (c : nat) (s : X * nat) : f64 :=
  nth c (model (fst s)) NaN.

Definition spec_S_c {X : Type} (model : X -> list f64) (train : list (X * nat)) (c : nat)
  : list f64 :=
  map (spec_score_at model c)
      (filter (fun s => (snd s =? c) && spec_classified_correctly model s) train).

(** [a <= b] as a relation, and lists without a NaN. *)
Definition fle (a b : f64) : Prop := leb a b = true.

Definition no_nan (l : list f64) : Prop := Forall (fun a => is_nan a = false) l.

(** [t] is the [k]-th smallest element of [l], 0-indexed. *)
Definition spec_kth_smallest (k : nat) (l : list f64) (t : f64) : Prop :=
  exists l', Permutation l l' /\ StronglySorted fle l' /\ nth_error l' k = Some t.

(** The three sets of a rejection decision, and the positions that compare
    with a NaN. *)
Definition spec_accept_correct (d : decision) (target : list nat) : list nat :=
  where_true (map2 andb (confidence_idx d) (map2 Nat.eqb (d_pred d) target)).

Definition spec_accept_incorrect (d : decision) (target : list nat) : list nat :=
  where_true (map2 andb (confidence_idx d)
                (map2 (fun a b => negb (a =? b)) (d_pred d) target)).

Definition spec_reject (d : decision) : list nat := where_true (reject_idx d).

Definition unordered (d : decision) : list nat :=
  where_true (map2 (fun v t => is_nan v || is_nan t) (d_values d) (d_thr d)).

(** A sample whose top score, or the threshold of its predicted class, is a
    NaN: it compares neither [>=] nor [<]. *)
Definition sample_unordered (thresholds : list f64) (row : list f64) : bool :=
  match row_max row with
  | Ok (v, p) => is_nan v || is_nan (nth p thresholds (Fin 0))
  | Raise _ => false
  end.

End IEEE.

(** ** Concrete inputs

    A two-class toy problem: an input is its own score vector. *)

Definition ex_model (x : list Q) : list Q := x.

Definition ex_hps : hparams :=
  {| n_classes := 2; n_batch_test := 2; percentile := 1 # 10 |}.

(** Clean training samples; the last one (label 0) is misclassified. *)
Definition ex_train : list (list Q * nat) :=
  [([5; 1]%Q, 0); ([1; 5]%Q, 1); ([7; 2]%Q, 0); ([2; 6]%Q, 1); ([1; 2]%Q, 0)].


Definition ex_test : list (list Q * nat) :=
  [([3; 1]%Q, 0); ([4; 1]%Q, 0); ([1; 9]%Q, 1)].

(** An attack that swaps the two scores of the inputs whose first score is 3
    and leaves the others as they are. *)
Definition ex_generate (xs : list (list Q)) : list (list Q) :=
  map (fun x => match x with
                | [a; b] => if Qeq_bool a 3 then [b; a] else x
                | _ => x
                end) xs.

(** An attack that never changes its input. *)
Definition ex_generate_none (xs : list (list Q)) : list (list Q) := xs.

Definition ex_transform (x : list Q) : list Q := x.

Definition ex_image_rows (x : list Q) : list (list Q) := [].

(** One corruption file of two images, and the labels. *)
Definition ex_data : list (list Q) := [[3; 1]; [1; 4]]%Q.
Definition ex_labels : list nat := [0; 1].
Definition ex_files : list (string * list (list Q)) :=
  [("gaussian_noise"%string, ex_data)].

(** A directory listing, and two file systems: one where the process runs
    inside the corruption directory's parent and the corruption file also
    sits in the working directory, one where the files are only in the
    corruption directory. *)
Definition ex_listdir : list string :=
  ["gaussian_noise.npy"%string; "labels.npy"%string].

Definition ex_np_load_cwd (path : string) : option (npy (list Q)) :=
  if String.eqb path "data/CIFAR-10-C/labels.npy" then Some (NpLabels ex_labels)
  else if String.eqb path "gaussian_noise.npy" then Some (NpImages ex_data)
       else None.

Definition ex_np_load_dir (path : string) : option (npy (list Q)) :=
  if String.eqb path "data/CIFAR-10-C/labels.npy" then Some (NpLabels ex_labels)
  else if String.eqb path "data/CIFAR-10-C/gaussian_noise.npy" then Some (NpImages ex_data)
       else None.

(** A checkpoint directory with one SDIM checkpoint that holds the key
    ['model_state'] only; states are numbers. *)
Definition ex_torch_load (path : string) : option (list (string * nat)) :=
  if String.eqb path "./logs/SDIM_resnet_cifar10.pth"
  then Some [("model_state"%string, 7)]
  else None.

(** The same kind of inputs on binary64 scores. *)

Definition ex_fmodel (x : list IEEE.f64) : list IEEE.f64 := x.

Definition ex_ftransform (x : list IEEE.f64) : list IEEE.f64 := x.

(** The percentile [0.3333333333333333], one class, and three clean samples
    with the scores 1, 2, 3. *)
Definition ex_third : IEEE.f64 := IEEE.round64 (3333333333333333 # 10000000000000000).

Definition ex_fhps (p : IEEE.f64) : IEEE.hparams :=
  {| IEEE.n_classes := 1; IEEE.n_batch_test := 2; IEEE.percentile := p |}.

Definition ex_ftrain_123 : list (list IEEE.f64 * nat) :=
  [([IEEE.Fin 1], 0); ([IEEE.Fin 2], 0); ([IEEE.Fin 3], 0)].

(** Three clean samples of which the second has the score NaN. *)
Definition ex_ftrain_nan : list (list IEEE.f64 * nat) :=
  [([IEEE.Fin 2], 0); ([IEEE.NaN], 0); ([IEEE.Fin 1], 0)].

(** The two-class toy problem. *)
Definition ex_fhps2 : IEEE.hparams :=
  {| IEEE.n_classes := 2; IEEE.n_batch_test := 2;
     IEEE.percentile := IEEE.round64 (1 # 10) |}.

Definition ex_ftrain : list (list IEEE.f64 * nat) :=
  [([IEEE.Fin 5; IEEE.Fin 1], 0); ([IEEE.Fin 1; IEEE.Fin 5], 1);
   ([IEEE.Fin 7; IEEE.Fin 2], 0); ([IEEE.Fin 2; IEEE.Fin 6], 1);
   ([IEEE.Fin 1; IEEE.Fin 2], 0)].

(** Two corrupted images of which the second has a NaN score; and six images
    of which, at the thresholds [2; 2] and with the labels below, one is
    accepted and correct, four are accepted and incorrect and one is
    rejected. *)
Definition ex_fdata_nan : list (list IEEE.f64) :=
  [[IEEE.Fin 3; IEEE.Fin 1]; [IEEE.NaN; IEEE.Fin 4]].

Definition ex_fdata_six : list (list IEEE.f64) :=
  [[IEEE.Fin 3; IEEE.Fin 1]; [IEEE.Fin 3; IEEE.Fin 1]; [IEEE.Fin 3; IEEE.Fin 1];
   [IEEE.Fin 3; IEEE.Fin 1]; [IEEE.Fin 3; IEEE.Fin 1]; [IEEE.Fin 1; IEEE.Fin 1]].

Definition ex_flabels_six : list nat := [0; 1; 1; 1; 1; 0].

(** A checkpoint that holds both keys. *)
Definition ex_torch_load_both (path : string) : option (list (string * nat)) :=
  if String.eqb path "./logs/SDIM_resnet_cifar10.pth"
  then Some [("model_state"%string, 7); ("state"%string, 7)]
  else None.

(** * Properties *)

(** ** The error monad *)

Lemma bind_Ok {A B : Type} (r : result A) (k : A -> result B) (b : B) :
  bind r k = Ok b -> exists a, r = Ok a /\ k a = Ok b.
Proof.
  destruct r as [a|e]; simpl; intros H; [exists a; auto | discriminate].
Qed.

Ltac inv_bind H :=
  let a := fresh "a" in
  let Ha := fresh "Ha" in
  apply bind_Ok in H; destruct H as (a & Ha & H).

Lemma mapM_Ok_length {A B : Type} (f : A -> result B) (l : list A) (bs : list B) :
  mapM f l = Ok bs -> length bs = length l.
Proof.
  revert bs; induction l as [|a l IH]; simpl; intros bs H.
  - injection H as <-; reflexivity.
  - inv_bind H. inv_bind H. injection H as <-. simpl. f_equal. auto.
Qed.

Lemma mapM_Ok_nth {A B : Type} (f : A -> result B) (l : list A) (bs : list B) :
  mapM f l = Ok bs ->
  forall i a, nth_error l i = Some a ->
              exists b, nth_error bs i = Some b /\ f a = Ok b.
Proof.
  revert bs; induction l as [|a0 l IH]; simpl; intros bs H i a Hi.
  - destruct i; discriminate.
  - inv_bind H. inv_bind H. injection H as <-.
    destruct i as [|i]; simpl in *.
    + injection Hi as <-. eauto.
    + eauto.
Qed.

Lemma mapM_total {A B : Type} (f : A -> result B) (l : list A) :
  (forall a, In a l -> exists b, f a = Ok b) ->
  exists bs, mapM f l = Ok bs.
Proof.
  induction l as [|a l IH]; simpl; intros H.
  - eauto.
  - destruct (H a (or_introl eq_refl)) as [b Hb].
    destruct IH as [bs Hbs]; [intros; apply H; auto|].
    rewrite Hb, Hbs; simpl; eauto.
Qed.

(** ** Comparisons on scores *)

Lemma Qltb_lt (a b : Q) : Qltb a b = true <-> (a < b)%Q.
Proof.
  unfold Qltb. rewrite Qlt_alt. destruct (a ?= b)%Q; split; congruence.
Qed.

Lemma Qgeb_le (a b : Q) : Qgeb a b = true <-> (b <= a)%Q.
Proof. unfold Qgeb. apply Qle_bool_iff. Qed.

Lemma Qltb_negb_Qgeb (a b : Q) : Qltb a b = negb (Qgeb a b).
Proof.
  destruct (Qltb a b) eqn:Hlt, (Qgeb a b) eqn:Hge; simpl; try reflexivity.
  - apply Qltb_lt in Hlt. apply Qgeb_le in Hge.
    exfalso. exact (Qlt_not_le _ _ Hlt Hge).
  - exfalso. destruct (Qlt_le_dec a b) as [H|H].
    + apply Qltb_lt in H. congruence.
    + apply Qgeb_le in H. congruence.
Qed.

Lemma Qltb_false_le (a b : Q) : Qltb a b = false <-> (b <= a)%Q.
Proof.
  rewrite Qltb_negb_Qgeb, negb_false_iff. apply Qgeb_le.
Qed.

(** ** [sorted] *)

Lemma insert_sorted_perm (x : Q) (l : list Q) : Permutation (x :: l) (insert_sorted x l).
Proof.
  induction l as [|h t IH]; simpl.
  - reflexivity.
  - destruct (Qltb h x).
    + rewrite perm_swap. constructor. exact IH.
    + reflexivity.
Qed.

Lemma sorted_perm (l : list Q) : Permutation l (sorted l).
Proof.
  induction l as [|x t IH]; simpl.
  - constructor.
  - rewrite <- insert_sorted_perm. constructor. exact IH.
Qed.

Lemma sorted_length (l : list Q) : length (sorted l) = length l.
Proof. symmetry. apply Permutation_length, sorted_perm. Qed.

Lemma insert_sorted_sorted (x : Q) (l : list Q) :
  StronglySorted Qle l -> StronglySorted Qle (insert_sorted x l).
Proof.
  induction 1 as [|h t Ht IH Hh]; simpl.
  - repeat constructor.
  - destruct (Qltb h x) eqn:Hc.
    + constructor; [exact IH|].
      apply Qltb_lt in Hc.
      rewrite <- insert_sorted_perm. constructor; [apply Qlt_le_weak, Hc | exact Hh].
    + apply Qltb_false_le in Hc.
      constructor; [constructor; assumption|].
      constructor; [exact Hc|].
      eapply Forall_impl; [|exact Hh]. intros v Hv. eapply Qle_trans; eassumption.
Qed.

Lemma sorted_sorted (l : list Q) : StronglySorted Qle (sorted l).
Proof.
  induction l as [|x t IH]; simpl.
  - constructor.
  - apply insert_sorted_sorted, IH.
Qed.


(** ** [int] and list indexing *)

Lemma py_int_floor (q : Q) : (0 <= q)%Q -> py_int q = Qfloor q.
Proof.
  destruct q as [a b]. unfold Qle, py_int, Qfloor. simpl. intros H.
  apply Z.quot_div_nonneg; lia.
Qed.


Lemma py_getitem_in_range {A : Type} (l : list A) (k : Z) :
  (0 <= k < Z.of_nat (length l))%Z ->
  exists a, py_getitem l k = Ok a /\ nth_error l (Z.to_nat k) = Some a.
Proof.
  intros Hk. unfold py_getitem.
  replace ((0 <=? k)%Z && (k <? Z.of_nat (length l))%Z) with true
    by (symmetry; apply andb_true_iff; split; [apply Z.leb_le | apply Z.ltb_lt]; lia).
  destruct (nth_error l (Z.to_nat k)) as [a|] eqn:Hn.
  - exists a; auto.
  - apply nth_error_None in Hn. lia.
Qed.

Lemma py_getitem_nil {A : Type} (k : Z) : py_getitem (@nil A) k = Raise IndexError.
Proof.
  unfold py_getitem. simpl.
  destruct ((0 <=? k)%Z && (k <? 0)%Z) eqn:H1.
  - apply andb_true_iff in H1. destruct H1 as [H1 H2].
    apply Z.leb_le in H1. apply Z.ltb_lt in H2. lia.
  - destruct ((- 0 <=? k)%Z && (k <? 0)%Z) eqn:H2; [|reflexivity].
    apply andb_true_iff in H2. destruct H2 as [H2 H3].
    apply Z.leb_le in H2. apply Z.ltb_lt in H3. lia.
Qed.

Lemma thresh_idx_floor (p : Q) (l : list Q) :
  (0 <= p)%Q ->
  thresh_idx p l = Qfloor (p * inject_Z (Z.of_nat (length l))).
Proof.
  intros Hp. unfold thresh_idx. apply py_int_floor.
  apply Qmult_le_0_compat; [exact Hp|].
  change 0%Q with (inject_Z 0). rewrite <- Zle_Qle. lia.
Qed.

Lemma thresh_idx_in_range (p : Q) (l : list Q) :
  (0 <= p)%Q -> (p < 1)%Q -> l <> [] ->
  (0 <= thresh_idx p l < Z.of_nat (length l))%Z.
Proof.
  intros Hp0 Hp1 Hl.
  assert (Hn : (0 < inject_Z (Z.of_nat (length l)))%Q).
  { change 0%Q with (inject_Z 0). rewrite <- Zlt_Qlt.
    destruct l; [congruence | simpl; lia]. }
  rewrite thresh_idx_floor by exact Hp0. split.
  - change 0%Z with (Qfloor 0). apply Qfloor_resp_le.
    apply Qmult_le_0_compat; [exact Hp0 | apply Qlt_le_weak, Hn].
  - rewrite Zlt_Qlt.
    eapply Qle_lt_trans; [apply Qfloor_le|].
    rewrite <- (Qmult_1_l (inject_Z (Z.of_nat (length l)))) at 2.
    apply Qmult_lt_compat_r; assumption.
Qed.



(** [thresh] on an index that is in range: the entry of that rank in
    [sorted]. *)
Lemma thresh_in_range (p : Q) (l : list Q) :
  (0 <= thresh_idx p l < Z.of_nat (length l))%Z ->
  exists t, thresh p l = Ok t /\
            nth_error (sorted l) (Z.to_nat (thresh_idx p l)) = Some t.
Proof.
  intros H. unfold thresh. apply py_getitem_in_range.
  rewrite sorted_length. exact H.
Qed.

(** ** Calibration: what is collected *)

Section CalibrationFacts.

Variable X : Type.
Variable model : X -> list Q.

Lemma collect_batch_cons (c : nat) (s : X * nat) (b : list (X * nat)) (S : list Q) :
  collect_batch model c (s :: b) = Ok S ->
  exists a S',
    argmax (model (fst s)) = Ok a /\ collect_batch model c b = Ok S' /\
    if a =? snd s
    then exists v, nth_error (model (fst s)) c = Some v /\ S = v :: S'
    else S = S'.
Proof.
  unfold collect_batch. simpl. intros H.
  inv_bind H. inv_bind Ha. inv_bind Ha. injection Ha as <-.
  exists a0. rewrite Ha1. simpl in *.
  destruct (a0 =? snd s); simpl in H.
  - unfold column in *. simpl in H. inv_bind H. inv_bind H. injection H as <-.
    exists a2. split; [exact Ha0|]. split; [exact Ha2|].
    destruct (nth_error (model (fst s)) c) as [v|]; [|discriminate].
    injection Ha as <-. eauto.
  - exists S. auto.
Qed.

Lemma collect_batch_spec (c : nat) (b : list (X * nat)) (S : list Q) :
  collect_batch model c b = Ok S ->
  S = map (spec_score_at model c) (filter (spec_classified_correctly model) b).
Proof.
  revert S; induction b as [|s b IH]; intros S H.
  - unfold collect_batch in H. simpl in H. injection H as <-. reflexivity.
  - apply collect_batch_cons in H. destruct H as (a & S' & Ha & Hb & H).
    simpl. unfold spec_classified_correctly at 1. rewrite Ha.
    specialize (IH _ Hb). subst S'.
    destruct (a =? snd s).
    + destruct H as (v & Hv & ->). simpl. f_equal.
      unfold spec_score_at. symmetry. apply nth_error_nth. exact Hv.
    + exact H.
Qed.

Lemma collect_scores_spec (c : nat) (loader : list (list (X * nat))) (acc S : list Q) :
  collect_scores model c loader acc = Ok S ->
  S = acc ++ map (spec_score_at model c)
               (filter (spec_classified_correctly model) (concat loader)).
Proof.
  revert acc; induction loader as [|b loader IH]; simpl; intros acc H.
  - injection H as <-. rewrite app_nil_r. reflexivity.
  - inv_bind H. apply collect_batch_spec in Ha. apply IH in H.
    rewrite filter_app, map_app, app_assoc. subst a. exact H.
Qed.


Lemma argmax_total (row : list Q) : row <> [] -> exists a, argmax row = Ok a.
Proof.
  destruct row as [|v row]; [congruence|]. intros _.
  unfold argmax, row_max. simpl. destruct (row_max_from v 0 1 row). eauto.
Qed.



End CalibrationFacts.

(** ** [DataLoader] *)

Lemma batches_fuel_concat {A : Type} (fuel batch_size : nat) (l : list A) :
  batch_size <> 0 -> length l <= fuel ->
  concat (batches_fuel fuel batch_size l) = l.
Proof.
  intros Hb. revert l; induction fuel as [|fuel IH]; intros l Hl; simpl.
  - destruct l; [reflexivity | simpl in Hl; lia].
  - destruct l as [|a l]; [reflexivity|].
    cbn [concat]. rewrite IH.
    + apply firstn_skipn.
    + rewrite length_skipn. cbn [length] in *. lia.
Qed.

Lemma DataLoader_concat {A : Type} (dataset : list A) (batch_size : nat)
  (loader : list (list A)) :
  DataLoader dataset batch_size = Ok loader -> concat loader = dataset.
Proof.
  unfold DataLoader. destruct (batch_size =? 0) eqn:Hb; [discriminate|].
  intros H. injection H as <-. apply Nat.eqb_neq in Hb.
  apply batches_fuel_concat; auto.
Qed.

Lemma DataLoader_total {A : Type} (dataset : list A) (batch_size : nat) :
  batch_size <> 0 -> exists loader, DataLoader dataset batch_size = Ok loader.
Proof.
  intros Hb. unfold DataLoader. apply Nat.eqb_neq in Hb. rewrite Hb. eauto.
Qed.

Lemma filter_filter_andb {A : Type} (f g : A -> bool) (l : list A) :
  filter f (filter g l) = filter (fun a => g a && f a) l.
Proof.
  induction l as [|a l IH]; simpl; [reflexivity|].
  destruct (g a); simpl; [destruct (f a)|]; rewrite IH; reflexivity.
Qed.

Section ClassScores.

Variable X : Type.
Variable model : X -> list Q.

(** The scores collected for class [c] are the collection [S_c] of the
    specification, in the order of the data set. *)
Lemma class_scores_spec (hps : hparams) (train : list (X * nat)) (c : nat) (S : list Q) :
  class_scores model hps train c = Ok S -> S = spec_S_c model train c.
Proof.
  unfold class_scores. intros H. inv_bind H.
  apply DataLoader_concat in Ha. apply collect_scores_spec in H.
  rewrite Ha in H. simpl in H. subst S.
  unfold spec_S_c, get_dataset. rewrite filter_filter_andb. reflexivity.
Qed.


End ClassScores.

(** ** The k-th smallest element is well defined *)








(** ** Thresholds, one class at a time *)

Lemma mapM_seq_nth {B : Type} (f : nat -> result B) (n : nat) (bs : list B) :
  mapM f (seq 0 n) = Ok bs ->
  length bs = n /\
  forall c, c < n -> exists b, nth_error bs c = Some b /\ f c = Ok b.
Proof.
  intros H. split.
  - rewrite (mapM_Ok_length _ _ _ H). apply length_seq.
  - intros c Hc. eapply mapM_Ok_nth; [exact H|].
    rewrite nth_error_seq. apply Nat.ltb_lt in Hc. rewrite Hc. reflexivity.
Qed.

Lemma mapM_seq_total {B : Type} (f : nat -> result B) (n : nat) :
  (forall c, c < n -> exists b, f c = Ok b) -> exists bs, mapM f (seq 0 n) = Ok bs.
Proof.
  intros H. apply mapM_total. intros c Hc. apply in_seq in Hc. apply H. lia.
Qed.

(** With a percentile in [0, 1) and a non-empty collection, [thresh] returns
    the entry of rank [floor (p * |S|)] of the ascending arrangement. *)
Lemma thresh_kth_smallest (p : Q) (S : list Q) :
  (0 <= p)%Q -> (p < 1)%Q -> S <> [] ->
  exists t, thresh p S = Ok t /\
            spec_kth_smallest (spec_rank p S) S t.
Proof.
  intros Hp0 Hp1 HS.
  destruct (thresh_in_range p S (thresh_idx_in_range p S Hp0 Hp1 HS)) as (t & Ht & Hn).
  exists t. split; [exact Ht|].
  exists (sorted S). unfold spec_rank. rewrite <- thresh_idx_floor by exact Hp0.
  auto using sorted_perm, sorted_sorted.
Qed.

Lemma thresh_Ok_nonempty (p : Q) (S : list Q) (t : Q) : thresh p S = Ok t -> S <> [].
Proof.
  intros H E. subst S. unfold thresh in H. simpl in H.
  rewrite py_getitem_nil in H. discriminate.
Qed.

Section Calibration.

Variable X : Type.
Variable model : X -> list Q.



End Calibration.



(** ** Tensors: [max], masks and counts *)

Lemma row_max_from_spec (row pre : list Q) (best : Q) (besti : nat) :
  nth_error (pre ++ row) besti = Some best ->
  (forall u, In u pre -> (u <= best)%Q) ->
  forall v p, row_max_from best besti (length pre) row = (v, p) ->
    nth_error (pre ++ row) p = Some v /\
    forall u, In u (pre ++ row) -> (u <= v)%Q.
Proof.
  revert pre best besti; induction row as [|v0 row IH]; intros pre best besti Hb Hpre v p H.
  - simpl in H. injection H as <- <-. rewrite app_nil_r in *. auto.
  - simpl in H. replace (pre ++ v0 :: row) with ((pre ++ [v0]) ++ row) in *
      by (rewrite <- app_assoc; reflexivity).
    replace (S (length pre)) with (length (pre ++ [v0])) in H
      by (rewrite length_app; simpl; lia).
    destruct (Qltb best v0) eqn:Hc.
    + apply Qltb_lt in Hc. eapply IH; [| |exact H].
      * rewrite nth_error_app1 by (rewrite length_app; simpl; lia).
        rewrite nth_error_app2 by lia. rewrite Nat.sub_diag. reflexivity.
      * intros u Hu. apply in_app_or in Hu. destruct Hu as [Hu|[<-|[]]].
        -- apply Qlt_le_weak. eapply Qle_lt_trans; [apply Hpre, Hu | exact Hc].
        -- apply Qle_refl.
    + apply Qltb_false_le in Hc. eapply IH; [exact Hb| |exact H].
      intros u Hu. apply in_app_or in Hu. destruct Hu as [Hu|[<-|[]]]; auto.
Qed.

(** [row.max()] returns the score at the predicted class, and no score of the
    row is larger. *)
Lemma row_max_spec (row : list Q) (v : Q) (p : nat) :
  row_max row = Ok (v, p) ->
  nth_error row p = Some v /\ forall u, In u row -> (u <= v)%Q.
Proof.
  destruct row as [|v0 row]; simpl; [discriminate|]. intros H. injection H as H.
  apply (row_max_from_spec row [v0] v0 0); simpl; auto.
  intros u [<-|[]]. apply Qle_refl.
Qed.

Lemma row_max_total (row : list Q) : row <> [] -> exists vp, row_max row = Ok vp.
Proof. destruct row; [congruence|]. simpl. eauto. Qed.

Lemma argmax_row_max (row : list Q) (v : Q) (p : nat) :
  row_max row = Ok (v, p) -> argmax row = Ok p.
Proof. unfold argmax. intros ->. reflexivity. Qed.

Lemma map2_length {A B C : Type} (f : A -> B -> C) (l1 : list A) (l2 : list B) :
  length l1 = length l2 -> length (map2 f l1 l2) = length l1.
Proof.
  revert l2; induction l1 as [|a l1 IH]; intros [|b l2] H; simpl in *; try lia.
  f_equal. apply IH. lia.
Qed.

Lemma nth_error_map2 {A B C : Type} (f : A -> B -> C) (l1 : list A) (l2 : list B)
  (i : nat) (c : C) :
  nth_error (map2 f l1 l2) i = Some c <->
  exists a b, nth_error l1 i = Some a /\ nth_error l2 i = Some b /\ c = f a b.
Proof.
  revert l2 i; induction l1 as [|a l1 IH]; intros [|b l2] i; simpl.
  - split; [destruct i; discriminate|]. intros (? & ? & H & _). destruct i; discriminate.
  - split; [destruct i; discriminate|]. intros (? & ? & H & _). destruct i; discriminate.
  - split; [destruct i; discriminate|]. intros (? & ? & _ & H & _). destruct i; discriminate.
  - destruct i as [|i]; simpl.
    + split.
      * intros H. injection H as <-. eauto.
      * intros (a' & b' & Ha & Hb & ->). congruence.
    + apply IH.
Qed.

Lemma count_true_cons (b : bool) (mask : list bool) :
  count_true (b :: mask) = (if b then 1 else 0) + count_true mask.
Proof. unfold count_true. simpl. destruct b; reflexivity. Qed.


Lemma indices_from_In (s : nat) (mask : list bool) (i : nat) :
  In i (indices_from s mask) <-> s <= i /\ nth_error mask (i - s) = Some true.
Proof.
  revert s; induction mask as [|b mask IH]; intros s; simpl.
  - split; [tauto|]. intros [_ H]. destruct (i - s); discriminate.
  - assert (Hstep : S s <= i -> i - s = S (i - S s)) by lia.
    destruct b; simpl; rewrite ?IH; split.
    + intros [<-|[Hle Hn]].
      * rewrite Nat.sub_diag. auto.
      * rewrite (Hstep Hle). split; [lia | exact Hn].
    + intros [Hle Hn]. destruct (Nat.eq_dec s i) as [->|Hne]; [auto|].
      right. assert (Hle' : S s <= i) by lia. rewrite (Hstep Hle') in Hn. auto.
    + intros [Hle Hn]. rewrite (Hstep Hle). split; [lia | exact Hn].
    + intros [Hle Hn]. destruct (Nat.eq_dec s i) as [->|Hne].
      * rewrite Nat.sub_diag in Hn. discriminate.
      * assert (Hle' : S s <= i) by lia. rewrite (Hstep Hle') in Hn. auto.
Qed.

Lemma where_true_In (mask : list bool) (i : nat) :
  In i (where_true mask) <-> nth_error mask i = Some true.
Proof.
  unfold where_true. rewrite indices_from_In, Nat.sub_0_r.
  split; [tauto | split; [lia | assumption]].
Qed.


(** Counting over the selected entries is counting the entries that are
    selected and counted. *)
Lemma count_mask_select {A : Type} (f : A -> A -> bool) (mask : list bool) (p t : list A) :
  length p = length mask -> length t = length mask ->
  count_true (map2 f (mask_select mask p) (mask_select mask t)) =
  count_true (map2 andb mask (map2 f p t)).
Proof.
  revert p t; induction mask as [|b mask IH]; intros [|a p] [|c t] Hp Ht;
    simpl in *; try lia; try reflexivity.
  destruct b; simpl; rewrite ?count_true_cons; rewrite IH by lia; reflexivity.
Qed.

(** ** The rejection decision *)

Lemma decide_inv (thresholds : list Q) (log_lik : list (list Q)) (d : decision) :
  decide thresholds log_lik = Ok d ->
  exists vp,
    mapM row_max log_lik = Ok vp /\
    d_values d = map fst vp /\ d_pred d = map snd vp /\
    gather thresholds (d_pred d) = Ok (d_thr d) /\
    confidence_idx d = map2 Qgeb (d_values d) (d_thr d) /\
    reject_idx d = map2 Qltb (d_values d) (d_thr d).
Proof.
  unfold decide. intros H. inv_bind H. inv_bind H. injection H as <-.
  exists a. simpl. repeat split; auto.
Qed.

Lemma decide_lengths (thresholds : list Q) (log_lik : list (list Q)) (d : decision) :
  decide thresholds log_lik = Ok d ->
  length (d_values d) = length log_lik /\ length (d_pred d) = length log_lik /\
  length (d_thr d) = length log_lik /\
  length (confidence_idx d) = length log_lik /\
  length (reject_idx d) = length log_lik.
Proof.
  intros H. destruct (decide_inv _ _ _ H) as (vp & Hvp & Hv & Hp & Hg & Hc & Hr).
  assert (L := mapM_Ok_length _ _ _ Hvp).
  assert (Lg := mapM_Ok_length _ _ _ Hg).
  assert (Lv : length (d_values d) = length log_lik) by (rewrite Hv, length_map; exact L).
  assert (Lp : length (d_pred d) = length log_lik) by (rewrite Hp, length_map; exact L).
  rewrite Hc, Hr, !map2_length by congruence. repeat split; congruence.
Qed.

(** One sample of a decided batch: its prediction is the argmax of its score
    vector, its value the score there, and both masks compare that score with
    the threshold of the predicted class. *)
Lemma decide_nth (thresholds : list Q) (log_lik : list (list Q)) (d : decision) :
  decide thresholds log_lik = Ok d ->
  forall i row, nth_error log_lik i = Some row ->
  exists v p th,
    row_max row = Ok (v, p) /\ nth_error thresholds p = Some th /\
    nth_error (d_pred d) i = Some p /\
    nth_error (confidence_idx d) i = Some (Qgeb v th) /\
    nth_error (reject_idx d) i = Some (Qltb v th).
Proof.
  intros H i row Hi.
  destruct (decide_inv _ _ _ H) as (vp & Hvp & Hv & Hp & Hg & Hc & Hr).
  destruct (mapM_Ok_nth _ _ _ Hvp i row Hi) as ([v p] & Hn & Hrow).
  assert (Hpi : nth_error (d_pred d) i = Some p)
    by (rewrite Hp, nth_error_map, Hn; reflexivity).
  assert (Hvi : nth_error (d_values d) i = Some v)
    by (rewrite Hv, nth_error_map, Hn; reflexivity).
  destruct (mapM_Ok_nth _ _ _ Hg i p Hpi) as (th & Hth & Hlook).
  destruct (nth_error thresholds p) as [th'|] eqn:Hth'; [|discriminate].
  injection Hlook as ->.
  exists v, p, th. repeat split; try assumption.
  - rewrite Hc. apply nth_error_map2. eauto.
  - rewrite Hr. apply nth_error_map2. eauto.
Qed.

Lemma decide_total (thresholds : list Q) (log_lik : list (list Q)) :
  (forall row, In row log_lik -> row <> [] /\ length row <= length thresholds) ->
  exists d, decide thresholds log_lik = Ok d.
Proof.
  intros H. unfold decide.
  destruct (mapM_total row_max log_lik) as [vp Hvp].
  { intros row Hrow. apply row_max_total, H, Hrow. }
  rewrite Hvp. simpl.
  destruct (mapM_total (fun p => of_option IndexError (nth_error thresholds p))
                       (map snd vp)) as [thr Hthr].
  { intros p Hp. apply in_map_iff in Hp. destruct Hp as ([v p'] & <- & Hin).
    apply In_nth_error in Hin. destruct Hin as [i Hi].
    assert (Li : i < length log_lik).
    { rewrite <- (mapM_Ok_length _ _ _ Hvp). apply nth_error_Some. congruence. }
    destruct (nth_error log_lik i) as [row|] eqn:Hrow;
      [|apply nth_error_None in Hrow; lia].
    destruct (mapM_Ok_nth _ _ _ Hvp i row Hrow) as (b & Hb & Hmax).
    assert (b = (v, p')) by congruence. subst b.
    apply row_max_spec in Hmax. destruct Hmax as [Hn _]. simpl.
    assert (Hlt : p' < length row) by (apply nth_error_Some; congruence).
    destruct (H row (nth_error_In _ _ Hrow)) as [_ Hlen].
    destruct (nth_error thresholds p') eqn:E; [eexists; reflexivity|].
    apply nth_error_None in E. lia. }
  unfold gather. rewrite Hthr. simpl. eauto.
Qed.

(** C5. A sample is rejected iff its score at the predicted class is strictly
    below the threshold of the predicted class, in the corruption pipeline
    ([reject_idx]) and in the adversarial one ([rej_idx1], [rej_idx2]); a
    sample whose score at the predicted class equals the threshold is not
    rejected, and the corruption pipeline accepts it ([confidence_idx]). *)
Theorem rejected_iff_score_below_threshold :
  (forall thresholds log_lik d,
     decide thresholds log_lik = Ok d ->
     forall i row, nth_error log_lik i = Some row ->
     exists v p th,
       argmax row = Ok p /\ nth_error row p = Some v /\
       nth_error (d_pred d) i = Some p /\ nth_error thresholds p = Some th /\
       (nth_error (reject_idx d) i = Some true <-> (v < th)%Q) /\
       (nth_error (confidence_idx d) i = Some true <-> ~ (v < th)%Q) /\
       ((v == th)%Q ->
        nth_error (reject_idx d) i = Some false /\
        nth_error (confidence_idx d) i = Some true))
  /\
  (forall (X : Type) (model : X -> list Q) (generate : list X -> list X)
          thresholds1 thresholds2 batch b,
     adv_eval_batch model generate thresholds1 thresholds2 batch = Ok b ->
     forall i adv, nth_error (b_adv_x b) i = Some adv ->
     exists v p th1 th2,
       argmax (model adv) = Ok p /\ nth_error (model adv) p = Some v /\
       nth_error (b_preds b) i = Some p /\
       nth_error thresholds1 p = Some th1 /\ nth_error thresholds2 p = Some th2 /\
       (nth_error (b_rej_idx1 b) i = Some true <-> (v < th1)%Q) /\
       (nth_error (b_rej_idx2 b) i = Some true <-> (v < th2)%Q) /\
       ((v == th1)%Q -> nth_error (b_rej_idx1 b) i = Some false) /\
       ((v == th2)%Q -> nth_error (b_rej_idx2 b) i = Some false)).
Proof.
  assert (Hiff : forall v th o, o = Some (Qltb v th) -> (o = Some true <-> (v < th)%Q)).
  { intros v th o ->. rewrite <- Qltb_lt. split; congruence. }
  assert (Heq : forall v th o, o = Some (Qltb v th) -> (v == th)%Q -> o = Some false).
  { intros v th o -> E. f_equal. apply Qltb_false_le. rewrite E. apply Qle_refl. }
  split.
  - intros thresholds log_lik d H i row Hi.
    destruct (decide_nth _ _ _ H i row Hi) as (v & p & th & Hmax & Hth & Hp & Hc & Hr).
    exists v, p, th.
    split; [eapply argmax_row_max; exact Hmax|].
    split; [apply (row_max_spec _ _ _ Hmax)|].
    split; [exact Hp|]. split; [exact Hth|].
    split; [apply (Hiff v th); exact Hr|]. split; [split|].
    + rewrite Hc. intros E Hlt. apply Qltb_lt in Hlt.
      rewrite Qltb_negb_Qgeb in Hlt. injection E as E. rewrite E in Hlt. discriminate.
    + intros Hn. rewrite Hc. f_equal.
      destruct (Qgeb v th) eqn:E; [reflexivity|]. exfalso. apply Hn.
      apply Qltb_lt. rewrite Qltb_negb_Qgeb, E. reflexivity.
    + intros E. split; [eapply Heq; eassumption|].
      rewrite Hc. f_equal. apply Qgeb_le. rewrite E. apply Qle_refl.
  - intros X model generate thresholds1 thresholds2 batch b H i adv Hi.
    unfold adv_eval_batch in H.
    inv_bind H. inv_bind H. inv_bind H. inv_bind H. inv_bind H.
    injection H as <-. simpl in *.
    assert (Hrow : nth_error (map model
                     (generate (mask_select (map2 Nat.eqb a (map snd batch))
                                            (map fst batch)))) i = Some (model adv))
      by (rewrite nth_error_map, Hi; reflexivity).
    destruct (mapM_Ok_nth _ _ _ Ha0 i _ Hrow) as ([v p] & Hn & Hmax).
    assert (Hpi : nth_error (map snd a0) i = Some p)
      by (rewrite nth_error_map, Hn; reflexivity).
    assert (Hvi : nth_error (map fst a0) i = Some v)
      by (rewrite nth_error_map, Hn; reflexivity).
    destruct (mapM_Ok_nth _ _ _ Ha2 i p Hpi) as (th1 & Hth1 & Hl1).
    destruct (mapM_Ok_nth _ _ _ Ha3 i p Hpi) as (th2 & Hth2 & Hl2).
    destruct (nth_error thresholds1 p) as [t1|] eqn:E1; [|discriminate].
    destruct (nth_error thresholds2 p) as [t2|] eqn:E2; [|discriminate].
    injection Hl1 as ->. injection Hl2 as ->.
    assert (R1 : nth_error (map2 Qltb (map fst a0) a2) i = Some (Qltb v th1))
      by (apply nth_error_map2; eauto).
    assert (R2 : nth_error (map2 Qltb (map fst a0) a3) i = Some (Qltb v th2))
      by (apply nth_error_map2; eauto).
    exists v, p, th1, th2.
    split; [eapply argmax_row_max; exact Hmax|].
    split; [apply (row_max_spec _ _ _ Hmax)|].
    split; [exact Hpi|]. split; [exact E1|]. split; [exact E2|].
    split; [apply (Hiff v th1); exact R1|].
    split; [apply (Hiff v th2); exact R2|].
    split; intros E; eapply Heq; eassumption.
Qed.

(** ** The partition of a batch *)


Lemma partition_counts (values thr : list Q) (pred target : list nat) :
  length thr = length values -> length pred = length values ->
  length target = length values ->
  count_true (map2 andb (map2 Qgeb values thr) (map2 Nat.eqb pred target)) +
  count_true (map2 andb (map2 Qgeb values thr)
                (map2 (fun a b => negb (a =? b)) pred target)) +
  count_true (map2 Qltb values thr) = length values.
Proof.
  revert thr pred target; induction values as [|v values IH];
    intros [|th thr] [|p pred] [|t target] H1 H2 H3; cbn [length] in *;
    try lia; try reflexivity.
  cbn [map2]. rewrite !count_true_cons, Qltb_negb_Qgeb.
  specialize (IH thr pred target ltac:(lia) ltac:(lia) ltac:(lia)).
  destruct (Qgeb v th), (p =? t); simpl; lia.
Qed.

Lemma batch_counts_sum (thresholds : list Q) (log_lik : list (list Q))
  (target : list nat) (d : decision) :
  decide thresholds log_lik = Ok d -> length target = length log_lik ->
  n_correct (batch_counts d target) + n_false (batch_counts d target) +
  n_reject (batch_counts d target) = length log_lik.
Proof.
  intros H Ltg.
  destruct (decide_inv _ _ _ H) as (vp & Hvp & Hv & Hp & Hg & Hc & Hr).
  destruct (decide_lengths _ _ _ H) as (Lv & Lp & Lt & Lc & Lr).
  unfold batch_counts. simpl.
  rewrite !count_mask_select by congruence.
  rewrite Hc, Hr, <- Lv. apply partition_counts; congruence.
Qed.

Section Partition.

Variable X : Type.
Variable model : X -> list Q.


End Partition.

(** ** Rates *)

Lemma Qnat_eq_bool_0 (n : nat) : Qeq_bool (Qnat n) 0 = (n =? 0).
Proof.
  unfold Qnat, Qeq_bool. simpl. rewrite Z.mul_1_r.
  destruct n; simpl; reflexivity.
Qed.

Lemma Qnat_add (a b : nat) : (Qnat (a + b) == Qnat a + Qnat b)%Q.
Proof. unfold Qnat. rewrite Nat2Z.inj_add, inject_Z_plus. reflexivity. Qed.


Lemma py_div_zero (a b : Q) : (b == 0)%Q -> py_div a b = Raise ZeroDivisionError.
Proof.
  intros H. unfold py_div. apply Qeq_bool_iff in H. rewrite H. reflexivity.
Qed.

Lemma py_div_nonzero (a : Q) (n : nat) :
  n <> 0 -> py_div a (Qnat n) = Ok (a / Qnat n)%Q.
Proof.
  intros H. unfold py_div. rewrite Qnat_eq_bool_0.
  apply Nat.eqb_neq in H. rewrite H. reflexivity.
Qed.


Lemma slice_rates_total (c : counters) (n : nat) :
  n <> 0 ->
  slice_rates c n = Ok ((Qnat (n_correct c) / Qnat n)%Q,
                        (Qnat (n_false c) / Qnat n)%Q,
                        (Qnat (n_reject c) / Qnat n)%Q).
Proof.
  intros H. unfold slice_rates. rewrite !py_div_nonzero by exact H. reflexivity.
Qed.

(** ** The counters of a slice *)

Section Slice.

Variable X : Type.
Variable model : X -> list Q.
Variable transform : X -> X.

Lemma slice_loop_sum (thresholds : list Q) (loader : list (list (X * nat)))
  (c0 c : counters) :
  slice_loop model thresholds loader c0 = Ok c ->
  n_correct c + n_false c + n_reject c =
  n_correct c0 + n_false c0 + n_reject c0 + length (concat loader).
Proof.
  revert c0; induction loader as [|batch loader IH]; simpl; intros c0 H.
  - injection H as <-. lia.
  - inv_bind H. apply IH in H. simpl in H.
    assert (Hb := batch_counts_sum _ _ (map snd batch) _ Ha).
    rewrite !length_map in Hb. specialize (Hb eq_refl).
    unfold batch_counts in Hb. simpl in Hb.
    rewrite length_app. lia.
Qed.

Lemma slice_counts_inv (hps : hparams) (thresholds : list Q)
  (data : list X) (labels : list nat) (severity : nat) (c : counters) (n : nat) :
  slice_counts model transform hps thresholds data labels severity = Ok (c, n) ->
  n = length (py_slice data (severity * interval) ((severity + 1) * interval)) /\
  n = length (py_slice labels (severity * interval) ((severity + 1) * interval)) /\
  n_correct c + n_false c + n_reject c = n.
Proof.
  unfold slice_counts, CorruptionDataset. intros H.
  destruct (length (py_slice data _ _) =? length (py_slice labels _ _)) eqn:E;
    [|discriminate].
  apply Nat.eqb_eq in E. simpl in H.
  inv_bind H. inv_bind H. injection H as <- <-.
  apply DataLoader_concat in Ha. apply slice_loop_sum in Ha0.
  rewrite Ha in Ha0. simpl in Ha0.
  rewrite length_combine, length_map, <- E, Nat.min_id in *. auto.
Qed.

Lemma slice_loop_total (thresholds : list Q) (loader : list (list (X * nat)))
  (c0 : counters) :
  (forall s, In s (concat loader) ->
             model (fst s) <> [] /\ length (model (fst s)) <= length thresholds) ->
  exists c, slice_loop model thresholds loader c0 = Ok c.
Proof.
  revert c0; induction loader as [|batch loader IH]; simpl; intros c0 H.
  - eauto.
  - destruct (decide_total thresholds (map model (map fst batch))) as [d Hd].
    { intros row Hrow. rewrite map_map in Hrow. apply in_map_iff in Hrow.
      destruct Hrow as (s & <- & Hs). apply H, in_or_app. auto. }
    rewrite Hd. simpl. apply IH. intros s Hs. apply H, in_or_app. auto.
Qed.

(** A slice is evaluated whenever its images and labels agree in number, the
    batch size is positive and every score vector is non-empty and no longer
    than the threshold vector. *)
Lemma slice_counts_total (hps : hparams) (thresholds : list Q)
  (data : list X) (labels : list nat) (severity : nat) :
  length (py_slice data (severity * interval) ((severity + 1) * interval)) =
  length (py_slice labels (severity * interval) ((severity + 1) * interval)) ->
  n_batch_test hps <> 0 ->
  (forall x, model (transform x) <> [] /\
             length (model (transform x)) <= length thresholds) ->
  exists c n,
    slice_counts model transform hps thresholds data labels severity = Ok (c, n).
Proof.
  intros Hlen Hb Hw. unfold slice_counts, CorruptionDataset.
  apply Nat.eqb_eq in Hlen. rewrite Hlen. simpl.
  destruct (DataLoader_total
              (combine (map transform (py_slice data (severity * interval)
                                                ((severity + 1) * interval)))
                       (py_slice labels (severity * interval)
                                 ((severity + 1) * interval)))
              _ Hb) as [loader Hl].
  rewrite Hl. simpl.
  destruct (slice_loop_total thresholds loader
              {| n_correct := 0; n_false := 0; n_reject := 0 |}) as [c Hc].
  { rewrite (DataLoader_concat _ _ _ Hl). intros [x y] Hs.
    apply in_combine_l, in_map_iff in Hs. destruct Hs as (x0 & <- & _).
    simpl. apply Hw. }
  rewrite Hc. simpl. eauto.
Qed.


End Slice.

(** ** Zero denominators *)

Lemma adv_rates_zero (c : adv_counters) :
  n_successful_adv c = 0 -> adv_rates c = Raise ZeroDivisionError.
Proof.
  intros H. unfold adv_rates. rewrite H. reflexivity.
Qed.

Lemma adv_rates_total (c : adv_counters) :
  n_successful_adv c <> 0 -> n_eval c <> 0 ->
  adv_rates c =
  Ok {| a_counters := c;
        reject_rate1 := (Qnat (n_rejected_adv1 c) / Qnat (n_successful_adv c))%Q;
        reject_rate2 := (Qnat (n_rejected_adv2 c) / Qnat (n_successful_adv c))%Q;
        success_adv_rate := (Qnat (n_successful_adv c) / Qnat (n_eval c))%Q |}.
Proof.
  intros H1 H2. unfold adv_rates.
  rewrite !py_div_nonzero by assumption. reflexivity.
Qed.

Lemma adv_rates_Ok (c : adv_counters) (st : adv_stats) :
  adv_rates c = Ok st ->
  n_successful_adv c <> 0 /\ n_eval c <> 0 /\ a_counters st = c /\
  success_adv_rate st = (Qnat (n_successful_adv c) / Qnat (n_eval c))%Q.
Proof.
  unfold adv_rates. intros H. inv_bind H. inv_bind H. inv_bind H.
  injection H as <-. simpl.
  unfold py_div in Ha, Ha1. rewrite Qnat_eq_bool_0 in Ha, Ha1.
  destruct (n_successful_adv c =? 0) eqn:E1; [discriminate|].
  destruct (n_eval c =? 0) eqn:E2; [discriminate|].
  apply Nat.eqb_neq in E1, E2. injection Ha1 as <-. auto.
Qed.

Section ZeroDenominator.

Variable X : Type.
Variable model : X -> list Q.
Variable transform : X -> X.
Variable generate : list X -> list X.

Lemma eval_severity_zero (hps : hparams) (thresholds : list Q)
  (data : list X) (labels : list nat) (severity : nat) (c : counters) (n : nat) :
  slice_counts model transform hps thresholds data labels severity = Ok (c, n) ->
  n_correct c + n_false c = 0 ->
  eval_severity model transform hps thresholds data labels severity =
  Raise ZeroDivisionError.
Proof.
  intros H H0. unfold eval_severity. rewrite H. simpl.
  destruct (Nat.eq_dec n 0) as [->|Hn].
  - reflexivity.
  - rewrite (slice_rates_total c n Hn). simpl.
    rewrite py_div_zero; [reflexivity|].
    replace (n_correct c) with 0 by lia. replace (n_false c) with 0 by lia.
    unfold Qnat. simpl. unfold Qdiv. rewrite !Qmult_0_l. reflexivity.
Qed.

(** C2, as the code has it. A zero denominator in a rate computation is not
    reported as NaN: the division raises [ZeroDivisionError] and the run
    stops there. In the adversarial pipeline this happens when
    [n_successful_adv = 0] and no statistic is printed; in the corruption
    pipeline when the slice is empty or [acc + false_rate = 0], and the
    severity loop ends with what earlier severities printed. *)
Theorem zero_denominator_raises :
  (forall c, n_successful_adv c = 0 -> adv_rates c = Raise ZeroDivisionError) /\
  (forall hps train test ths1 ths2 loader c,
     adv_thresholds model hps train = Ok (ths1, ths2) ->
     DataLoader test (n_batch_test hps) = Ok loader ->
     adv_loop model generate ths1 ths2 loader = Ok c ->
     n_successful_adv c = 0 ->
     attack_run_rejection_policy model generate hps train test =
     Raise ZeroDivisionError) /\
  (forall hps thresholds data labels severity c n,
     slice_counts model transform hps thresholds data labels severity = Ok (c, n) ->
     n_correct c + n_false c = 0 ->
     eval_severity model transform hps thresholds data labels severity =
     Raise ZeroDivisionError /\
     forall severities printed,
       severity_loop model transform hps thresholds data labels
                     (severity :: severities) printed =
       (printed, Some ZeroDivisionError)).
Proof.
  split; [exact adv_rates_zero|]. split.
  - intros hps train test ths1 ths2 loader c Ht Hl Hc Hz.
    unfold attack_run_rejection_policy. rewrite Ht. simpl. rewrite Hl. simpl.
    rewrite Hc. simpl. apply adv_rates_zero, Hz.
  - intros hps thresholds data labels severity c n H H0.
    assert (E := eval_severity_zero _ _ _ _ _ _ _ H H0).
    split; [exact E|]. intros severities printed. simpl. rewrite E. reflexivity.
Qed.

End ZeroDenominator.

(** ** The adversarial batch *)

Section Adversarial.

Variable X : Type.
Variable model : X -> list Q.
Variable generate : list X -> list X.

Lemma select_correct {B : Type} (g : X * nat -> B) (batch : list (X * nat))
  (pred : list nat) :
  mapM argmax (map model (map fst batch)) = Ok pred ->
  mask_select (map2 Nat.eqb pred (map snd batch)) (map g batch) =
  map g (filter (spec_classified_correctly model) batch) /\
  count_true (map2 Nat.eqb pred (map snd batch)) =
  length (filter (spec_classified_correctly model) batch).
Proof.
  revert pred; induction batch as [|s batch IH]; simpl; intros pred H.
  - injection H as <-. auto.
  - inv_bind H. inv_bind H. injection H as <-. simpl.
    destruct (IH _ Ha0) as [IH1 IH2].
    assert (Hs : spec_classified_correctly model s = (a =? snd s))
      by (unfold spec_classified_correctly; rewrite Ha; reflexivity).
    rewrite Hs, count_true_cons.
    destruct (a =? snd s); simpl; rewrite IH1, IH2; auto.
Qed.

Lemma tensor_ne_same_length (a b : list nat) :
  length a = length b ->
  tensor_ne a b = Ok (map2 (fun p q => negb (p =? q)) a b).
Proof.
  intros H. unfold tensor_ne. apply Nat.eqb_eq in H. rewrite H. reflexivity.
Qed.


End Adversarial.

(** ** The loop over corruption types *)

Section CorruptionLoop.

Variable X : Type.
Variable model : X -> list Q.
Variable transform : X -> X.
Variable image_rows : X -> list X.

(** The header accepts what [enumerate] would yield: an index paired with a
    triple. *)
Lemma loop_header_enumerated (i : nat) (name : string) (data : list X) (y : list nat) :
  loop_header image_rows (PTuple [PInt i; PTuple [PStr name; PImages data; PLabels y]]) =
  Ok (PInt i, PStr name, PImages data, PLabels y).
Proof. reflexivity. Qed.

Lemma loop_header_triple (name : string) (data : list X) (y : list nat) :
  loop_header image_rows (PTuple [PStr name; PImages data; PLabels y]) =
  Raise ValueError.
Proof. reflexivity. Qed.

(** C8, what the code does. With at least one corruption file the header of
    the loop over [get_c_dataset()] unpacks the yielded triple into two
    targets and raises [ValueError]: no severity slice is evaluated, nothing
    is printed, and the run never reaches [exit(0)]. *)
Theorem corruption_loop_raises_at_header (hps : hparams) (train : list (X * nat))
  (thresholds : list Q) (file : string * list X) (files : list (string * list X))
  (y : list nat) :
  corruption_loop model transform image_rows hps thresholds
                  (get_c_dataset (file :: files) y) = ([], Uncaught ValueError) /\
  exists e,
    inference_rejection model transform image_rows hps train (file :: files) y =
    ([], Uncaught e).
Proof.
  split; [reflexivity|].
  unfold inference_rejection.
  destruct (get_thresholds model hps train) as [ths|e];
    [exists ValueError | exists e]; reflexivity.
Qed.

End CorruptionLoop.

(** * The scenarios of the specification, and concrete runs *)

(** Scenario A: ten correctly classified scores 0.1 .. 1.0 and percentile 0.1
    give the threshold 0.2. *)
Example scenario_A :
  thresh (1 # 10) [1 # 10; 2 # 10; 3 # 10; 4 # 10; 5 # 10;
                   6 # 10; 7 # 10; 8 # 10; 9 # 10; 1]%Q = Ok (2 # 10)%Q.
Proof. reflexivity. Qed.

(** Scenario B: both samples are accepted and correct. *)
Example scenario_B :
  exists d, decide [1 # 2; 1 # 2]%Q [[9 # 10; 1 # 10]; [3 # 10; 7 # 10]]%Q = Ok d /\
            d_pred d = [0; 1] /\
            spec_accept_correct d [0; 1] = [0; 1] /\
            spec_accept_incorrect d [0; 1] = [] /\ spec_reject d = [].
Proof. eexists. split; [reflexivity|]. repeat split. Qed.

(** Scenario C: with thresholds 0.95 both samples are rejected. *)
Example scenario_C :
  exists d, decide [95 # 100; 95 # 100]%Q [[9 # 10; 1 # 10]; [3 # 10; 7 # 10]]%Q = Ok d /\
            spec_accept_correct d [0; 1] = [] /\
            spec_accept_incorrect d [0; 1] = [] /\ spec_reject d = [0; 1].
Proof. eexists. split; [reflexivity|]. repeat split. Qed.

(** C1, what the code does. On a batch of two clean-correct samples of which
    the attack turns one into a successful adversarial example, both
    adversarial scores lie below the thresholds and both samples are counted
    as rejected: [n_rejected_adv1 = n_rejected_adv2 = 2] while
    [n_successful_adv = 1], and the printed reject rates are 2. The masks
    [rej_idx1] and [rej_idx2] are summed over every attacked sample, not over
    the successful ones. *)
Theorem rejected_counts_exceed_successful :
  exists st,
    attack_run_rejection_policy ex_model ex_generate ex_hps ex_train ex_test = Ok st /\
    n_eval (a_counters st) = 2 /\
    n_successful_adv (a_counters st) = 1 /\
    n_rejected_adv1 (a_counters st) = 2 /\
    n_rejected_adv2 (a_counters st) = 2 /\
    (reject_rate1 st == 2)%Q /\ (reject_rate2 st == 2)%Q /\
    exists b,
      adv_eval_batch ex_model ex_generate [5; 5]%Q [5; 5]%Q
                     [([3; 1]%Q, 0); ([4; 1]%Q, 0)] = Ok b /\
      b_preds b = [1; 0] /\ b_y b = [0; 0] /\
      b_success_idx b = [true; false] /\
      b_rej_idx1 b = [true; true] /\ b_rej_idx2 b = [true; true].
Proof.
  eexists. split; [vm_compute; reflexivity|]. simpl.
  repeat (split; [reflexivity|]).
  eexists. split; [vm_compute; reflexivity|]. repeat split.
Qed.

(** C2 fails on the code: with no successful adversarial example the
    adversarial run raises [ZeroDivisionError], and so does the corruption
    slice in which every sample is rejected. *)
Lemma zero_denominator_counterexample :
  attack_run_rejection_policy ex_model ex_generate_none ex_hps ex_train ex_test =
  Raise ZeroDivisionError /\
  slice_counts ex_model ex_transform ex_hps [5; 5]%Q ex_data ex_labels 0 =
  Ok ({| n_correct := 0; n_false := 0; n_reject := 2 |}, 2) /\
  eval_severity ex_model ex_transform ex_hps [5; 5]%Q ex_data ex_labels 0 =
  Raise ZeroDivisionError.
Proof. vm_compute. repeat split. Qed.


(** ** Instances *)




Lemma zero_denominator_raises_witness :
  attack_run_rejection_policy ex_model ex_generate_none ex_hps ex_train ex_test =
  Raise ZeroDivisionError /\
  severity_loop ex_model ex_transform ex_hps [5; 5]%Q ex_data ex_labels (seq 0 5) [] =
  ([], Some ZeroDivisionError).
Proof.
  destruct (zero_denominator_raises (list Q) ex_model ex_transform ex_generate_none)
    as (_ & H2 & H3).
  split.
  - eapply H2.
    + vm_compute. reflexivity.
    + reflexivity.
    + vm_compute. reflexivity.
    + reflexivity.
  - eapply H3.
    + vm_compute. reflexivity.
    + reflexivity.
Defined.

Lemma rejected_iff_score_below_threshold_witness :
  exists d,
    decide [1 # 2; 1 # 2]%Q [[9 # 10; 1 # 10]; [1 # 2; 3 # 10]]%Q = Ok d /\
    nth_error (reject_idx d) 1 = Some false /\
    nth_error (confidence_idx d) 1 = Some true.
Proof.
  eexists. split; [reflexivity|].
  destruct (proj1 rejected_iff_score_below_threshold
              [1 # 2; 1 # 2]%Q [[9 # 10; 1 # 10]; [1 # 2; 3 # 10]]%Q _ eq_refl
              1 [1 # 2; 3 # 10]%Q eq_refl)
    as (v & p & th & Hp & Hv & _ & Hth & _ & _ & Heq).
  vm_compute in Hp. injection Hp as <-.
  simpl in Hv, Hth. injection Hv as <-. injection Hth as <-.
  apply Heq. reflexivity.
Defined.




(** * Further properties of the two scripts *)

(** ** Calibrated thresholds are observed top scores *)

Lemma py_getitem_In {A : Type} (l : list A) (k : Z) (a : A) :
  py_getitem l k = Ok a -> In a l.
Proof.
  unfold py_getitem. intros H.
  destruct ((0 <=? k)%Z && (k <? Z.of_nat (length l))%Z).
  - destruct (nth_error l (Z.to_nat k)) eqn:E; [|discriminate].
    injection H as <-. eapply nth_error_In; exact E.
  - destruct ((- Z.of_nat (length l) <=? k)%Z && (k <? 0)%Z); [|discriminate].
    destruct (nth_error l (Z.to_nat (Z.of_nat (length l) + k))) eqn:E; [|discriminate].
    injection H as <-. eapply nth_error_In; exact E.
Qed.

Lemma thresh_In (p : Q) (S : list Q) (t : Q) : thresh p S = Ok t -> In t S.
Proof.
  intros H. apply py_getitem_In in H.
  eapply Permutation_in; [symmetry; apply sorted_perm | exact H].
Qed.

Lemma argmax_Ok_row_max (row : list Q) (p : nat) :
  argmax row = Ok p -> exists v, row_max row = Ok (v, p).
Proof.
  unfold argmax. destruct (row_max row) as [[v q]|e]; simpl; [|discriminate].
  intros H. injection H as <-. eauto.
Qed.


Section ObservedThresholds.

Variable X : Type.
Variable model : X -> list Q.

Lemma spec_S_c_In (train : list (X * nat)) (c : nat) (t : Q) :
  In t (spec_S_c model train c) ->
  exists x, In (x, c) train /\ argmax (model x) = Ok c /\
            nth_error (model x) c = Some t /\
            forall u, In u (model x) -> (u <= t)%Q.
Proof.
  unfold spec_S_c. intros H. apply in_map_iff in H.
  destruct H as ([x y] & Ht & Hin). apply filter_In in Hin.
  destruct Hin as [Hin Hf]. apply andb_true_iff in Hf. destruct Hf as [Hy Hc].
  simpl in Hy. apply Nat.eqb_eq in Hy. subst y.
  unfold spec_classified_correctly in Hc. simpl in Hc.
  destruct (argmax (model x)) as [a|e] eqn:Ha; [|discriminate].
  apply Nat.eqb_eq in Hc. subst a.
  destruct (argmax_Ok_row_max _ _ Ha) as [v Hv].
  apply row_max_spec in Hv. destruct Hv as [Hn Hmax].
  unfold spec_score_at in Ht. simpl in Ht.
  rewrite (nth_error_nth _ _ _ Hn) in Ht. subst v.
  exists x. auto.
Qed.

Lemma calibrated_entry_observed (hps : hparams) (train : list (X * nat))
  (p : Q) (c : nat) (t : Q) :
  (in_ll_list <- class_scores model hps train c ;; thresh p in_ll_list) = Ok t ->
  exists x, In (x, c) train /\ argmax (model x) = Ok c /\
            nth_error (model x) c = Some t /\
            forall u, In u (model x) -> (u <= t)%Q.
Proof.
  intros H. inv_bind H. apply class_scores_spec in Ha. subst a.
  apply thresh_In in H. apply spec_S_c_In. exact H.
Qed.

(** Whatever the percentile, a calibration that succeeds returns one
    threshold per class, and the threshold of class [c] is the top score of a
    clean sample of label [c] that the model classifies as [c]: thresholds
    are never interpolated or invented. *)
Theorem thresholds_are_observed_top_scores (hps : hparams) (train : list (X * nat)) :
  (forall ths, get_thresholds model hps train = Ok ths ->
     length ths = n_classes hps /\
     forall c, c < n_classes hps ->
       exists t x, nth_error ths c = Some t /\ In (x, c) train /\
                   argmax (model x) = Ok c /\ nth_error (model x) c = Some t /\
                   forall u, In u (model x) -> (u <= t)%Q) /\
  (forall ths1 ths2, adv_thresholds model hps train = Ok (ths1, ths2) ->
     length ths1 = n_classes hps /\ length ths2 = n_classes hps /\
     forall c, c < n_classes hps ->
       exists t1 x1 t2 x2,
         nth_error ths1 c = Some t1 /\ In (x1, c) train /\
         argmax (model x1) = Ok c /\ nth_error (model x1) c = Some t1 /\
         nth_error ths2 c = Some t2 /\ In (x2, c) train /\
         argmax (model x2) = Ok c /\ nth_error (model x2) c = Some t2).
Proof.
  split.
  - intros ths H. unfold get_thresholds in H.
    apply mapM_seq_nth in H. destruct H as [Hlen H].
    split; [exact Hlen|]. intros c Hc.
    destruct (H c Hc) as (t & Hn & Ht).
    destruct (calibrated_entry_observed _ _ _ _ _ Ht) as (x & ? & ? & ? & ?).
    exists t, x. auto.
  - intros ths1 ths2 H. unfold adv_thresholds in H.
    inv_bind H. injection H as <- <-.
    apply mapM_seq_nth in Ha. destruct Ha as [Hlen Ha].
    rewrite !length_map. split; [exact Hlen|]. split; [exact Hlen|].
    intros c Hc. destruct (Ha c Hc) as ([t1 t2] & Hn & Ht).
    inv_bind Ht. inv_bind Ht. inv_bind Ht. injection Ht as -> ->.
    assert (H1 : (in_ll_list <- class_scores model hps train c ;;
                  thresh (1 # 100) in_ll_list) = Ok t1)
      by (rewrite Ha0; exact Ha1).
    assert (H2 : (in_ll_list <- class_scores model hps train c ;;
                  thresh (2 # 100) in_ll_list) = Ok t2)
      by (rewrite Ha0; exact Ha2).
    apply calibrated_entry_observed in H1, H2.
    destruct H1 as (x1 & ? & ? & ? & _), H2 as (x2 & ? & ? & ? & _).
    exists t1, x1, t2, x2. rewrite !nth_error_map, Hn. simpl. auto 10.
Qed.

End ObservedThresholds.

(** ** The two percentiles of the adversarial run *)



Lemma Forall2_nth_error {A B : Type} (R : A -> B -> Prop) (l1 : list A) (l2 : list B) :
  Forall2 R l1 l2 ->
  forall i a b, nth_error l1 i = Some a -> nth_error l2 i = Some b -> R a b.
Proof.
  induction 1 as [|x y l1 l2 Hxy _ IH]; intros i a b Ha Hb.
  - destruct i; discriminate.
  - destruct i as [|i]; simpl in *.
    + injection Ha as <-. injection Hb as <-. exact Hxy.
    + eapply IH; eassumption.
Qed.

Section AdvThresholds.

Variable X : Type.
Variable model : X -> list Q.



End AdvThresholds.

(** ** Raising thresholds only rejects more *)

Lemma Qltb_mono_r (v t1 t2 : Q) :
  (t1 <= t2)%Q -> Qltb v t1 = true -> Qltb v t2 = true.
Proof.
  intros Hle H. apply Qltb_lt in H. apply Qltb_lt.
  eapply Qlt_le_trans; eassumption.
Qed.

Lemma gather_mono (ths1 ths2 : list Q) (pred : list nat) (a b : list Q) :
  Forall2 Qle ths1 ths2 ->
  gather ths1 pred = Ok a -> gather ths2 pred = Ok b -> Forall2 Qle a b.
Proof.
  intros HF. unfold gather. revert a b; induction pred as [|p pred IH];
    simpl; intros a b Ha Hb.
  - injection Ha as <-. injection Hb as <-. constructor.
  - inv_bind Ha. inv_bind Ha. injection Ha as <-.
    inv_bind Hb. inv_bind Hb. injection Hb as <-.
    constructor; [|apply IH; assumption].
    destruct (nth_error ths1 p) as [t1|] eqn:E1; [|discriminate].
    destruct (nth_error ths2 p) as [t2|] eqn:E2; [|discriminate].
    simpl in *.
    repeat match goal with H : Ok _ = Ok _ |- _ => injection H as H; subst end.
    eapply Forall2_nth_error; eassumption.
Qed.

Lemma map2_Qltb_mono (values a b : list Q) :
  Forall2 Qle a b ->
  (forall i, nth_error (map2 Qltb values a) i = Some true ->
             nth_error (map2 Qltb values b) i = Some true) /\
  count_true (map2 Qltb values a) <= count_true (map2 Qltb values b).
Proof.
  intros HF. revert values; induction HF as [|x y a b Hxy _ IH]; intros values.
  - destruct values; simpl; split; auto.
  - destruct values as [|v values]; [simpl; split; auto|].
    cbn [map2]. destruct (IH values) as [IH1 IH2]. split.
    + intros [|i]; simpl.
      * intros H. injection H as H. f_equal. eapply Qltb_mono_r; eassumption.
      * apply IH1.
    + rewrite !count_true_cons.
      destruct (Qltb v x) eqn:E.
      * rewrite (Qltb_mono_r v x y Hxy E). lia.
      * destruct (Qltb v y); lia.
Qed.

(** In the corruption script, thresholds that are raised class by class keep
    every prediction, keep every rejected sample rejected, and never lower
    the number of rejected samples of a batch. *)
Theorem raising_thresholds_only_rejects_more
  (ths ths' : list Q) (log_lik : list (list Q)) (target : list nat) (d d' : decision) :
  Forall2 Qle ths ths' ->
  decide ths log_lik = Ok d -> decide ths' log_lik = Ok d' ->
  d_pred d = d_pred d' /\
  (forall i, In i (spec_reject d) -> In i (spec_reject d')) /\
  n_reject (batch_counts d target) <= n_reject (batch_counts d' target).
Proof.
  intros HF H H'.
  destruct (decide_inv _ _ _ H) as (vp & Hvp & Hv & Hp & Hg & Hc & Hr).
  destruct (decide_inv _ _ _ H') as (vp' & Hvp' & Hv' & Hp' & Hg' & Hc' & Hr').
  assert (vp' = vp) by congruence. subst vp'.
  assert (Epred : d_pred d = d_pred d') by congruence.
  assert (Eval : d_values d = d_values d') by congruence.
  rewrite <- Epred in Hg'.
  assert (Hthr := gather_mono _ _ _ _ _ HF Hg Hg').
  destruct (map2_Qltb_mono (d_values d) _ _ Hthr) as [M1 M2].
  split; [exact Epred|]. split.
  - intros i. unfold spec_reject. rewrite !where_true_In, Hr, Hr', <- Eval. apply M1.
  - unfold batch_counts. simpl. rewrite Hr, Hr', <- Eval. exact M2.
Qed.

(** ** Counters of the adversarial run *)

Section AdvRun.

Variable X : Type.
Variable model : X -> list Q.
Variable generate : list X -> list X.

Lemma adv_eval_batch_inv (ths1 ths2 : list Q) (batch : list (X * nat)) (b : adv_batch X) :
  adv_eval_batch model generate ths1 ths2 batch = Ok b ->
  exists lp thr1 thr2,
    b_x b = map fst (filter (spec_classified_correctly model) batch) /\
    b_y b = map snd (filter (spec_classified_correctly model) batch) /\
    count_true (b_correct_idx b) =
      length (filter (spec_classified_correctly model) batch) /\
    b_adv_x b = generate (b_x b) /\
    mapM row_max (map model (b_adv_x b)) = Ok lp /\
    b_logits b = map fst lp /\ b_preds b = map snd lp /\
    tensor_ne (b_preds b) (b_y b) = Ok (b_success_idx b) /\
    gather ths1 (b_preds b) = Ok thr1 /\ b_rej_idx1 b = map2 Qltb (b_logits b) thr1 /\
    gather ths2 (b_preds b) = Ok thr2 /\ b_rej_idx2 b = map2 Qltb (b_logits b) thr2.
Proof.
  unfold adv_eval_batch. intros H.
  inv_bind H. inv_bind H. inv_bind H. inv_bind H. inv_bind H.
  destruct (select_correct X model fst batch a Ha) as [Hx Hn].
  destruct (select_correct X model snd batch a Ha) as [Hy _].
  injection H as <-. simpl. exists a0, a2, a3.
  rewrite <- Hx, <- Hy. repeat split; auto.
Qed.

Lemma adv_loop_inv (ths1 ths2 : list Q) (loader : list (list (X * nat)))
  (c : adv_counters) :
  adv_loop model generate ths1 ths2 loader = Ok c ->
  (loader = [] /\ n_successful_adv c = 0) \/
  exists batch rest b,
    loader = batch :: rest /\
    adv_eval_batch model generate ths1 ths2 batch = Ok b /\
    c = adv_batch_counters b.
Proof.
  destruct loader as [|batch rest]; simpl; intros H.
  - injection H as <-. auto.
  - inv_bind H. injection H as <-. right. eauto 6.
Qed.

Lemma attack_run_inv (hps : hparams) (train test : list (X * nat)) (st : adv_stats) :
  attack_run_rejection_policy model generate hps train test = Ok st ->
  exists ths1 ths2 loader c,
    adv_thresholds model hps train = Ok (ths1, ths2) /\
    DataLoader test (n_batch_test hps) = Ok loader /\
    adv_loop model generate ths1 ths2 loader = Ok c /\
    adv_rates c = Ok st.
Proof.
  unfold attack_run_rejection_policy. intros H.
  inv_bind H. destruct a as [ths1 ths2]. inv_bind H. inv_bind H.
  exists ths1, ths2, a, a0. auto.
Qed.

Lemma adv_rates_Ok_full (c : adv_counters) (st : adv_stats) :
  adv_rates c = Ok st ->
  n_successful_adv c <> 0 /\ n_eval c <> 0 /\
  st = {| a_counters := c;
          reject_rate1 := (Qnat (n_rejected_adv1 c) / Qnat (n_successful_adv c))%Q;
          reject_rate2 := (Qnat (n_rejected_adv2 c) / Qnat (n_successful_adv c))%Q;
          success_adv_rate := (Qnat (n_successful_adv c) / Qnat (n_eval c))%Q |}.
Proof.
  intros H. destruct (adv_rates_Ok _ _ H) as (H1 & H2 & _).
  rewrite (adv_rates_total c H1 H2) in H. injection H as <-. auto.
Qed.

Lemma Qnat_le (a b : nat) : a <= b -> (Qnat a <= Qnat b)%Q.
Proof. intros H. unfold Qnat. rewrite <- Zle_Qle. lia. Qed.

Lemma Qnat_pos (a : nat) : a <> 0 -> (0 < Qnat a)%Q.
Proof.
  intros H. unfold Qnat. change 0%Q with (inject_Z 0). rewrite <- Zlt_Qlt. lia.
Qed.



End AdvRun.

Lemma count_true_le (mask : list bool) : count_true mask <= length mask.
Proof. unfold count_true. apply filter_length_le. Qed.

Lemma DataLoader_head {A : Type} (dataset : list A) (batch_size : nat)
  (batch : list A) (rest : list (list A)) :
  DataLoader dataset batch_size = Ok (batch :: rest) ->
  batch = firstn batch_size dataset /\ batch_size <> 0.
Proof.
  unfold DataLoader. destruct (batch_size =? 0) eqn:E; [discriminate|].
  apply Nat.eqb_neq in E. intros H. injection H as H.
  destruct dataset as [|a l]; simpl in H; [discriminate|].
  injection H as <- _. auto.
Qed.

Section AdvRunBounds.

Variable X : Type.
Variable model : X -> list Q.
Variable generate : list X -> list X.

Lemma adv_batch_lengths (ths1 ths2 : list Q) (batch : list (X * nat)) (b : adv_batch X) :
  (forall xs, length (generate xs) = length xs) ->
  adv_eval_batch model generate ths1 ths2 batch = Ok b ->
  let kept := length (filter (spec_classified_correctly model) batch) in
  count_true (b_correct_idx b) = kept /\
  length (b_success_idx b) = kept /\
  length (b_rej_idx1 b) = kept /\ length (b_rej_idx2 b) = kept.
Proof.
  intros Hgen H.
  destruct (adv_eval_batch_inv _ _ _ _ _ _ _ H)
    as (lp & thr1 & thr2 & Hx & Hy & Hn & Hadv & Hlp & Hlog & Hpr & Hne & G1 & R1 & G2 & R2).
  assert (Llp : length lp = length (filter (spec_classified_correctly model) batch)).
  { rewrite (mapM_Ok_length _ _ _ Hlp), length_map, Hadv, Hgen, Hx, length_map.
    reflexivity. }
  assert (Lpr : length (b_preds b) = length (b_y b))
    by (rewrite Hpr, Hy, !length_map; exact Llp).
  rewrite (tensor_ne_same_length _ _ Lpr) in Hne. injection Hne as Hne.
  assert (L1 := mapM_Ok_length _ _ _ G1). assert (L2 := mapM_Ok_length _ _ _ G2).
  simpl. split; [exact Hn|]. rewrite <- Hne, R1, R2.
  rewrite !map2_length by (rewrite ?Hlog, ?Hpr, ?length_map in *; congruence).
  rewrite Hlog, Hpr, !length_map. auto.
Qed.

(** With an attack that returns one output per input, the counters of a
    completed adversarial run are bounded by the number of evaluated samples,
    which is itself at most the batch size and the size of the test set; the
    printed success rate is at most 1. *)
Theorem adv_run_counts_bounded (hps : hparams) (train test : list (X * nat))
  (st : adv_stats) :
  (forall xs, length (generate xs) = length xs) ->
  attack_run_rejection_policy model generate hps train test = Ok st ->
  n_eval (a_counters st) <= n_batch_test hps /\
  n_eval (a_counters st) <= length test /\
  n_successful_adv (a_counters st) <= n_eval (a_counters st) /\
  n_rejected_adv1 (a_counters st) <= n_eval (a_counters st) /\
  n_rejected_adv2 (a_counters st) <= n_eval (a_counters st) /\
  (success_adv_rate st <= 1)%Q.
Proof.
  intros Hgen H.
  destruct (attack_run_inv _ _ _ _ _ _ _ H) as (ths1 & ths2 & loader & c & _ & Hd & Hl & Hr).
  apply adv_rates_Ok_full in Hr. destruct Hr as (Hs & He & ->). simpl.
  destruct (adv_loop_inv _ _ _ _ _ _ _ Hl) as [[_ H0]|(batch & rest & b & -> & Hb & ->)];
    [congruence|].
  apply DataLoader_head in Hd. destruct Hd as [-> Hbs].
  destruct (adv_batch_lengths _ _ _ _ Hgen Hb) as (Hn & Ls & L1 & L2).
  unfold adv_batch_counters in *. simpl in *.
  pose proof (count_true_le (b_success_idx b)).
  pose proof (count_true_le (b_rej_idx1 b)).
  pose proof (count_true_le (b_rej_idx2 b)).
  pose proof (filter_length_le (spec_classified_correctly model)
                               (firstn (n_batch_test hps) test)) as Hk.
  rewrite length_firstn in Hk.
  repeat split; try lia.
  apply Qle_shift_div_r; [apply Qnat_pos, He|].
  rewrite Qmult_1_l. apply Qnat_le. lia.
Qed.

(** A completed adversarial run has at least one successful adversarial
    example: the success rate it prints is strictly positive, never zero. *)
Theorem adv_run_completes_only_with_success (hps : hparams)
  (train test : list (X * nat)) (st : adv_stats) :
  attack_run_rejection_policy model generate hps train test = Ok st ->
  1 <= n_successful_adv (a_counters st) /\ 1 <= n_eval (a_counters st) /\
  (0 < success_adv_rate st)%Q /\
  (0 <= reject_rate1 st)%Q /\ (0 <= reject_rate2 st)%Q.
Proof.
  intros H.
  destruct (attack_run_inv _ _ _ _ _ _ _ H) as (ths1 & ths2 & loader & c & _ & _ & _ & Hr).
  apply adv_rates_Ok_full in Hr. destruct Hr as (Hs & He & ->). simpl.
  split; [lia|]. split; [lia|]. split; [|split].
  - apply Qlt_shift_div_l; [apply Qnat_pos, He|].
    rewrite Qmult_0_l. apply Qnat_pos, Hs.
  - apply Qle_shift_div_l; [apply Qnat_pos, Hs|].
    rewrite Qmult_0_l. apply (Qnat_le 0). lia.
  - apply Qle_shift_div_l; [apply Qnat_pos, Hs|].
    rewrite Qmult_0_l. apply (Qnat_le 0). lia.
Qed.

(** The adversarial run reads the first batch of the test set and nothing
    else: it gives the same result on the test set cut down to its first
    [n_batch_test] samples. *)
Theorem adv_run_reads_first_batch_only (hps : hparams) (train test : list (X * nat)) :
  attack_run_rejection_policy model generate hps train test =
  attack_run_rejection_policy model generate hps train
    (firstn (n_batch_test hps) test).
Proof.
  unfold attack_run_rejection_policy.
  destruct (adv_thresholds model hps train) as [[ths1 ths2]|e]; simpl; [|reflexivity].
  unfold DataLoader. destruct (n_batch_test hps) as [|k] eqn:E; simpl; [reflexivity|].
  destruct test as [|a t]; simpl; [reflexivity|].
  rewrite firstn_firstn, Nat.min_id. reflexivity.
Qed.

End AdvRunBounds.

(** ** The severity slices *)

Lemma firstn_add_skipn {A : Type} (a b : nat) (l : list A) :
  firstn (a + b) l = firstn a l ++ firstn b (skipn a l).
Proof.
  revert l; induction a as [|a IH]; intros l; simpl; [reflexivity|].
  destruct l as [|x l]; simpl.
  - rewrite firstn_nil. reflexivity.
  - f_equal. apply IH.
Qed.

Lemma py_slice_length {A : Type} (l : list A) (lo hi : nat) :
  length (py_slice l lo hi) = Nat.min (hi - lo) (length l - lo).
Proof. unfold py_slice. rewrite length_firstn, length_skipn. reflexivity. Qed.

Lemma py_slice_step {A : Type} (l : list A) (s k : nat) :
  py_slice l (s * k) ((s + 1) * k) = firstn k (skipn (s * k) l).
Proof. unfold py_slice. f_equal. nia. Qed.

Lemma slices_concat {A : Type} (l : list A) (k m : nat) :
  concat (map (fun s => py_slice l (s * k) ((s + 1) * k)) (seq 0 m)) =
  firstn (m * k) l.
Proof.
  induction m as [|m IH].
  - reflexivity.
  - rewrite seq_S, map_app, concat_app, IH. cbn [map concat plus].
    rewrite app_nil_r, py_slice_step.
    replace (S m * k) with (m * k + k) by lia.
    symmetry. apply firstn_add_skipn.
Qed.

(** The five slices [data[severity*10000 : (severity+1)*10000]] are
    consecutive and tile the first 50000 rows of the corruption array (and of
    the labels): rows beyond them are never evaluated, and a slice of a
    shorter array is shorter than 10000 or empty. *)
Theorem severity_slices_tile_data {A : Type} (data : list A) :
  concat (map (fun severity =>
                 py_slice data (severity * interval) ((severity + 1) * interval))
              (seq 0 5)) = firstn (5 * interval) data /\
  forall severity,
    length (py_slice data (severity * interval) ((severity + 1) * interval)) =
    Nat.min interval (length data - severity * interval).
Proof.
  split.
  - apply slices_concat.
  - intros severity. rewrite py_slice_length. f_equal. nia.
Qed.

(** ** The statistics of a slice *)

Section SliceStatistics.

Variable X : Type.
Variable model : X -> list Q.
Variable transform : X -> X.

Lemma Qnat_eq_0 (n : nat) : (Qnat n == 0)%Q -> n = 0.
Proof.
  intros H. apply Qeq_bool_iff in H. rewrite Qnat_eq_bool_0 in H.
  apply Nat.eqb_eq. exact H.
Qed.

Lemma rates_sum_accepted (a b n : nat) :
  n <> 0 ->
  (Qnat a / Qnat n + Qnat b / Qnat n == Qnat (a + b) / Qnat n)%Q.
Proof.
  intros Hn. rewrite Qnat_add. field.
  intros E. apply Qnat_eq_0 in E. contradiction.
Qed.

Lemma accepted_ratio (a b n : nat) :
  n <> 0 -> a + b <> 0 ->
  (Qnat a / Qnat n / (Qnat a / Qnat n + Qnat b / Qnat n) == Qnat a / Qnat (a + b))%Q.
Proof.
  intros Hn Hab. rewrite rates_sum_accepted by exact Hn. field.
  split; intros E; apply Qnat_eq_0 in E; contradiction.
Qed.

Lemma eval_severity_inv (hps : hparams) (thresholds : list Q)
  (data : list X) (labels : list nat) (severity : nat) (st : slice_stats) :
  eval_severity model transform hps thresholds data labels severity = Ok st ->
  let c := s_counters st in
  let n := s_n st in
  slice_counts model transform hps thresholds data labels severity = Ok (c, n) /\
  n <> 0 /\ n_correct c + n_false c <> 0 /\
  acc st = (Qnat (n_correct c) / Qnat n)%Q /\
  false_rate st = (Qnat (n_false c) / Qnat n)%Q /\
  reject_rate st = (Qnat (n_reject c) / Qnat n)%Q /\
  acc_remain st = (acc st / (acc st + false_rate st))%Q.
Proof.
  intros H.
  destruct (slice_counts model transform hps thresholds data labels severity)
    as [[c n]|e] eqn:Hc;
    [|unfold eval_severity in H; rewrite Hc in H; discriminate].
  destruct (Nat.eq_dec n 0) as [->|Hn].
  { unfold eval_severity in H. rewrite Hc in H. discriminate. }
  destruct (Nat.eq_dec (n_correct c + n_false c) 0) as [Hz|Hz].
  { rewrite (eval_severity_zero X model transform _ _ _ _ _ _ _ Hc Hz) in H.
    discriminate. }
  unfold eval_severity in H. rewrite Hc in H. simpl in H.
  rewrite (slice_rates_total c n Hn) in H. simpl in H.
  inv_bind H. injection H as <-. simpl.
  unfold py_div in Ha.
  destruct (Qeq_bool _ 0); [discriminate|]. injection Ha as <-.
  repeat split; auto.
Qed.


(** Each of the four statistics printed for a slice lies in [0, 1]. *)
Theorem slice_statistics_in_unit_interval (hps : hparams) (thresholds : list Q)
  (data : list X) (labels : list nat) (severity : nat) (st : slice_stats) :
  eval_severity model transform hps thresholds data labels severity = Ok st ->
  (0 <= acc st <= 1)%Q /\ (0 <= false_rate st <= 1)%Q /\
  (0 <= reject_rate st <= 1)%Q /\ (0 <= acc_remain st <= 1)%Q.
Proof.
  intros Hst. apply eval_severity_inv in Hst.
  destruct Hst as (Hc & Hn & Hz & Ea & Ef & Er & Em).
  apply slice_counts_inv in Hc. destruct Hc as (_ & _ & Hsum).
  assert (B : forall a m, a <= m -> m <> 0 -> (0 <= Qnat a / Qnat m <= 1)%Q).
  { intros a m Ham Hm. split.
    - apply Qle_shift_div_l; [apply Qnat_pos, Hm|].
      rewrite Qmult_0_l. apply (Qnat_le 0). lia.
    - apply Qle_shift_div_r; [apply Qnat_pos, Hm|].
      rewrite Qmult_1_l. apply Qnat_le, Ham. }
  rewrite Em, Ea, Ef, Er.
  rewrite (accepted_ratio _ _ _ Hn Hz).
  repeat split; apply B; lia.
Qed.

(** The severity loop only appends to what is printed: it prints one record
    per severity, in order, up to the first severity whose evaluation raises,
    and ends with that exception; the records printed before stay printed. *)
Theorem severity_loop_prints_until_first_failure (hps : hparams) (thresholds : list Q)
  (data : list X) (labels : list nat) (severities : list nat)
  (printed out : list slice_stats) (r : option pyerr) :
  severity_loop model transform hps thresholds data labels severities printed = (out, r) ->
  exists new,
    out = printed ++ new /\
    Forall2 (fun severity st =>
               eval_severity model transform hps thresholds data labels severity = Ok st)
            (firstn (length new) severities) new /\
    match r with
    | None => length new = length severities
    | Some e =>
        exists severity,
          nth_error severities (length new) = Some severity /\
          eval_severity model transform hps thresholds data labels severity = Raise e
    end.
Proof.
  revert printed out; induction severities as [|s severities IH]; simpl;
    intros printed out H.
  - injection H as <- <-. exists []. rewrite app_nil_r. repeat split. constructor.
  - destruct (eval_severity model transform hps thresholds data labels s) as [st|e] eqn:E.
    + apply IH in H. destruct H as (new & -> & HF & Hr).
      exists (st :: new). rewrite <- app_assoc. simpl.
      split; [reflexivity|]. split; [constructor; assumption|].
      destruct r; [exact Hr | f_equal; exact Hr].
    + injection H as <- <-. exists []. rewrite app_nil_r.
      split; [reflexivity|]. split; [constructor|]. exists s. auto.
Qed.

End SliceStatistics.

(** ** Calibration, sample by sample *)

Lemma argmax_Raise (row : list Q) (e : pyerr) : argmax row = Raise e -> e = IndexError.
Proof.
  unfold argmax, row_max. destruct row as [|v row]; simpl.
  - congruence.
  - destruct (row_max_from v 0 1 row). discriminate.
Qed.

Section CalibrationSamplewise.

Variable X : Type.
Variable model : X -> list Q.

Lemma collect_batch_char (c : nat) (b : list (X * nat)) :
  collect_batch model c b =
  if forallb (sample_scored model c) b
  then Ok (map (spec_score_at model c) (filter (spec_classified_correctly model) b))
  else Raise IndexError.
Proof.
  induction b as [|s b IH]; [reflexivity|].
  unfold collect_batch in *. cbn [map mapM forallb filter].
  unfold sample_scored at 1, spec_classified_correctly at 1.
  destruct (argmax (model (fst s))) as [a|e] eqn:Ha; simpl.
  - destruct (mapM argmax (map model (map fst b))) as [am|e'] eqn:Hm; simpl in *.
    + destruct (a =? snd s); simpl.
      * unfold column in *. simpl. unfold spec_score_at at 1.
        destruct (nth_error (model (fst s)) c) as [v|] eqn:Hv; simpl.
        -- assert (Hlt : c < length (model (fst s)))
             by (apply nth_error_Some; congruence).
           apply Nat.ltb_lt in Hlt. rewrite Hlt. simpl.
           rewrite IH. destruct (forallb (sample_scored model c) b); simpl; [|reflexivity].
           rewrite (nth_error_nth _ _ _ Hv). reflexivity.
        -- apply nth_error_None in Hv. apply Nat.ltb_ge in Hv. rewrite Hv. reflexivity.
      * exact IH.
    + destruct (forallb (sample_scored model c) b); [discriminate|].
      rewrite IH. destruct (a =? snd s); [rewrite andb_false_r|]; reflexivity.
  - rewrite (argmax_Raise _ _ Ha). reflexivity.
Qed.

Lemma collect_scores_char (c : nat) (loader : list (list (X * nat))) (acc : list Q) :
  collect_scores model c loader acc =
  if forallb (sample_scored model c) (concat loader)
  then Ok (acc ++ map (spec_score_at model c)
                    (filter (spec_classified_correctly model) (concat loader)))
  else Raise IndexError.
Proof.
  revert acc; induction loader as [|b loader IH]; intros acc; simpl.
  - rewrite app_nil_r. reflexivity.
  - rewrite collect_batch_char, forallb_app, filter_app, map_app.
    destruct (forallb (sample_scored model c) b); simpl; [|reflexivity].
    rewrite IH, app_assoc. reflexivity.
Qed.

Lemma class_scores_char (hps : hparams) (train : list (X * nat)) (c : nat) :
  class_scores model hps train c =
  if n_batch_test hps =? 0 then Raise ValueError
  else if forallb (sample_scored model c) (get_dataset train c)
       then Ok (spec_S_c model train c)
       else Raise IndexError.
Proof.
  unfold class_scores, DataLoader.
  destruct (n_batch_test hps =? 0) eqn:E; [reflexivity|]. simpl.
  rewrite collect_scores_char, batches_fuel_concat
    by (try apply Nat.eqb_neq; auto).
  simpl. unfold spec_S_c, get_dataset. rewrite filter_filter_andb. reflexivity.
Qed.

Lemma mapM_ext_in {A B : Type} (f g : A -> result B) (l : list A) :
  (forall a, In a l -> f a = g a) -> mapM f l = mapM g l.
Proof.
  induction l as [|a l IH]; simpl; intros H; [reflexivity|].
  rewrite (H a (or_introl eq_refl)), IH; [reflexivity|]. intros; apply H; auto.
Qed.

(** Calibration does not depend on how the clean samples are batched: two
    positive batch sizes give the same thresholds, or the same exception, in
    both scripts. *)
Theorem calibration_independent_of_batch_size (hps hps' : hparams)
  (train : list (X * nat)) :
  n_classes hps' = n_classes hps -> percentile hps' = percentile hps ->
  n_batch_test hps <> 0 -> n_batch_test hps' <> 0 ->
  get_thresholds model hps' train = get_thresholds model hps train /\
  adv_thresholds model hps' train = adv_thresholds model hps train.
Proof.
  intros Hn Hp Hb Hb'.
  assert (E : forall c, class_scores model hps' train c = class_scores model hps train c).
  { intros c. rewrite !class_scores_char.
    apply Nat.eqb_neq in Hb, Hb'. rewrite Hb, Hb'. reflexivity. }
  unfold get_thresholds, adv_thresholds. rewrite Hn, Hp. split.
  - apply mapM_ext_in. intros c _. rewrite E. reflexivity.
  - f_equal. apply mapM_ext_in. intros c _. rewrite E. reflexivity.
Qed.

End CalibrationSamplewise.

(** ** When calibration succeeds, and on which data *)

Lemma mapM_Raise {A B : Type} (f : A -> result B) (l : list A) (e : pyerr) :
  mapM f l = Raise e -> exists a, In a l /\ f a = Raise e.
Proof.
  induction l as [|a l IH]; simpl; [discriminate|].
  destruct (f a) as [b|e'] eqn:Ha; simpl.
  - destruct (mapM f l) as [bs|e''] eqn:Hl; simpl; [discriminate|].
    intros H. injection H as <-. destruct (IH eq_refl) as (a' & ? & ?). eauto.
  - intros H. injection H as <-. eauto.
Qed.




Lemma thresh_nil (p : Q) : thresh p [] = Raise IndexError.
Proof. unfold thresh. simpl. apply py_getitem_nil. Qed.

Section CalibrationSuccess.

Variable X : Type.
Variable model : X -> list Q.

Lemma sample_scored_own_class (c : nat) (x : X) :
  model x <> [] -> sample_scored model c (x, c) = true.
Proof.
  intros Hne. unfold sample_scored. simpl.
  destruct (argmax_total _ Hne) as [a Ha]. rewrite Ha.
  destruct (a =? c) eqn:E; [|reflexivity].
  apply Nat.eqb_eq in E. subst a.
  destruct (argmax_Ok_row_max _ _ Ha) as [v Hv]. apply row_max_spec in Hv.
  apply Nat.ltb_lt, nth_error_Some. destruct Hv as [Hv _]. congruence.
Qed.

Lemma class_scores_nonempty_rows (hps : hparams) (train : list (X * nat)) (c : nat) :
  n_batch_test hps <> 0 ->
  (forall x y, In (x, y) train -> model x <> []) ->
  class_scores model hps train c = Ok (spec_S_c model train c).
Proof.
  intros Hb Hne. rewrite class_scores_char.
  apply Nat.eqb_neq in Hb. rewrite Hb.
  replace (forallb (sample_scored model c) (get_dataset train c)) with true;
    [reflexivity|].
  symmetry. apply forallb_forall. intros [x y] Hin.
  unfold get_dataset in Hin. apply filter_In in Hin. destruct Hin as [Hin Hy].
  simpl in Hy. apply Nat.eqb_eq in Hy. subst y.
  apply sample_scored_own_class. eapply Hne; exact Hin.
Qed.

(** With a percentile in [0, 1), a positive batch size and a model that never
    returns an empty score vector, calibration succeeds exactly when every
    class below [n_classes] has a clean sample that the model classifies
    correctly; otherwise it raises [IndexError]. This holds for both
    scripts. *)
Theorem calibration_succeeds_iff_every_class_observed (hps : hparams)
  (train : list (X * nat)) :
  (0 <= percentile hps)%Q -> (percentile hps < 1)%Q ->
  n_batch_test hps <> 0 ->
  (forall x y, In (x, y) train -> model x <> []) ->
  let observed := forall c, c < n_classes hps -> spec_S_c model train c <> [] in
  ((exists ths, get_thresholds model hps train = Ok ths) <-> observed) /\
  ((exists ths, adv_thresholds model hps train = Ok ths) <-> observed) /\
  (forall e, get_thresholds model hps train = Raise e -> e = IndexError) /\
  (forall e, adv_thresholds model hps train = Raise e -> e = IndexError).
Proof.
  intros Hp0 Hp1 Hb Hne observed.
  assert (E := fun c => class_scores_nonempty_rows hps train c Hb Hne).
  split; [|split; [|split]].
  - split.
    + intros [ths H] c Hc. unfold get_thresholds in H.
      apply mapM_seq_nth in H. destruct H as [_ H].
      destruct (H c Hc) as (t & _ & Ht). rewrite E in Ht. simpl in Ht.
      eapply thresh_Ok_nonempty; exact Ht.
    + intros Hobs. apply mapM_seq_total. intros c Hc. rewrite E. simpl.
      destruct (thresh_kth_smallest (percentile hps) _ Hp0 Hp1 (Hobs c Hc))
        as (t & Ht & _). eauto.
  - split.
    + intros [[ths1 ths2] H] c Hc. unfold adv_thresholds in H. inv_bind H.
      apply mapM_seq_nth in Ha. destruct Ha as [_ Ha].
      destruct (Ha c Hc) as (t & _ & Ht). rewrite E in Ht. simpl in Ht.
      inv_bind Ht. eapply thresh_Ok_nonempty; exact Ha0.
    + intros Hobs. unfold adv_thresholds.
      destruct (mapM_seq_total
                  (fun label_id =>
                     in_ll_list <- class_scores model hps train label_id ;;
                     thresh1 <- thresh (1 # 100) in_ll_list ;;
                     thresh2 <- thresh (2 # 100) in_ll_list ;;
                     Ok (thresh1, thresh2)) (n_classes hps)) as [ts Hts].
      { intros c Hc. rewrite E. simpl.
        destruct (thresh_kth_smallest (1 # 100) _ ltac:(discriminate)
                    ltac:(reflexivity) (Hobs c Hc)) as (t1 & Ht1 & _).
        destruct (thresh_kth_smallest (2 # 100) _ ltac:(discriminate)
                    ltac:(reflexivity) (Hobs c Hc)) as (t2 & Ht2 & _).
        rewrite Ht1, Ht2. simpl. eauto. }
      rewrite Hts. simpl. eauto.
  - intros e H. unfold get_thresholds in H. apply mapM_Raise in H.
    destruct H as (c & _ & H). rewrite E in H. simpl in H.
    destruct (spec_S_c model train c) as [|v S] eqn:ES.
    + rewrite thresh_nil in H. congruence.
    + destruct (thresh_kth_smallest (percentile hps) (v :: S) Hp0 Hp1 ltac:(discriminate))
        as (t & Ht & _). congruence.
  - intros e H. unfold adv_thresholds in H.
    destruct (mapM _ (seq 0 (n_classes hps))) as [ts|e'] eqn:Hm; [discriminate|].
    simpl in H. injection H as <-. apply mapM_Raise in Hm.
    destruct Hm as (c & _ & H). rewrite E in H. simpl in H.
    destruct (spec_S_c model train c) as [|v S] eqn:ES.
    + rewrite thresh_nil in H. simpl in H. congruence.
    + destruct (thresh_kth_smallest (1 # 100) (v :: S) ltac:(discriminate)
                  ltac:(reflexivity) ltac:(discriminate)) as (t1 & Ht1 & _).
      destruct (thresh_kth_smallest (2 # 100) (v :: S) ltac:(discriminate)
                  ltac:(reflexivity) ltac:(discriminate)) as (t2 & Ht2 & _).
      rewrite Ht1, Ht2 in H. discriminate.
Qed.





End CalibrationSuccess.

(** ** The counters of a slice, sample by sample *)

Lemma mapM_char {A B : Type} (f : A -> result B) (ok : A -> bool) (g : A -> B)
  (l : list A) :
  (forall a, In a l -> f a = if ok a then Ok (g a) else Raise IndexError) ->
  mapM f l = if forallb ok l then Ok (map g l) else Raise IndexError.
Proof.
  induction l as [|a l IH]; simpl; intros H; [reflexivity|].
  rewrite (H a (or_introl eq_refl)), IH by (intros; apply H; auto).
  destruct (ok a); simpl; [|reflexivity].
  destruct (forallb ok l); reflexivity.
Qed.

Lemma mapM_map {A B C : Type} (f : B -> result C) (h : A -> B) (l : list A) :
  mapM f (map h l) = mapM (fun a => f (h a)) l.
Proof.
  induction l as [|a l IH]; simpl; [reflexivity|]. rewrite IH. reflexivity.
Qed.

Lemma map2_map_map {A B C D : Type} (f : B -> C -> D) (g : A -> B) (h : A -> C)
  (l : list A) :
  map2 f (map g l) (map h l) = map (fun a => f (g a) (h a)) l.
Proof.
  induction l as [|a l IH]; simpl; [reflexivity|]. rewrite IH. reflexivity.
Qed.

Lemma count_true_map {A : Type} (f : A -> bool) (l : list A) :
  count_true (map f l) = length (filter f l).
Proof.
  induction l as [|a l IH]; [reflexivity|].
  cbn [map filter]. rewrite count_true_cons, IH. destruct (f a); reflexivity.
Qed.

Lemma forallb_andb {A : Type} (f g : A -> bool) (l : list A) :
  forallb (fun a => f a && g a) l = forallb f l && forallb g l.
Proof.
  induction l as [|a l IH]; simpl; [reflexivity|]. rewrite IH.
  destruct (f a), (g a), (forallb f l), (forallb g l); reflexivity.
Qed.

Lemma forallb_map {A B : Type} (f : B -> bool) (h : A -> B) (l : list A) :
  forallb f (map h l) = forallb (fun a => f (h a)) l.
Proof.
  induction l as [|a l IH]; simpl; [reflexivity|]. rewrite IH. reflexivity.
Qed.

Lemma forallb_pointwise {A : Type} (f g : A -> bool) (l : list A) :
  (forall a, f a = g a) -> forallb f l = forallb g l.
Proof.
  intros H. induction l as [|a l IH]; simpl; [reflexivity|]. rewrite H, IH. reflexivity.
Qed.

Lemma row_max_char (row : list Q) :
  row_max row =
  if row_nonempty row then Ok (row_value row, row_pred row) else Raise IndexError.
Proof.
  unfold row_value, row_pred. destruct row as [|v row]; simpl; [reflexivity|].
  destruct (row_max_from v 0 1 row). reflexivity.
Qed.

Lemma row_in_range_split (thresholds row : list Q) :
  row_in_range thresholds row =
  row_nonempty row && (row_pred row <? length thresholds).
Proof.
  unfold row_in_range, row_pred. destruct row as [|v row]; simpl; [reflexivity|].
  destruct (row_max_from v 0 1 row). reflexivity.
Qed.

Lemma lookup_char (thresholds : list Q) (p : nat) :
  of_option IndexError (nth_error thresholds p) =
  if p <? length thresholds then Ok (nth p thresholds 0%Q) else Raise IndexError.
Proof.
  destruct (nth_error thresholds p) as [t|] eqn:E.
  - assert (H : p < length thresholds) by (apply nth_error_Some; congruence).
    apply Nat.ltb_lt in H. rewrite H. simpl. rewrite (nth_error_nth _ _ _ E). reflexivity.
  - apply nth_error_None, Nat.ltb_ge in E. rewrite E. reflexivity.
Qed.

Lemma decide_char (thresholds : list Q) (rows : list (list Q)) :
  decide thresholds rows =
  if forallb (row_in_range thresholds) rows
  then Ok {| d_values := map row_value rows;
             d_pred := map row_pred rows;
             d_thr := map (row_threshold thresholds) rows;
             confidence_idx := map (sample_accepted thresholds) rows;
             reject_idx := map (sample_rejected thresholds) rows |}
  else Raise IndexError.
Proof.
  unfold decide.
  rewrite (mapM_char row_max row_nonempty (fun r => (row_value r, row_pred r)))
    by (intros; apply row_max_char).
  rewrite (forallb_pointwise _ _ rows (row_in_range_split thresholds)), forallb_andb.
  destruct (forallb row_nonempty rows); simpl; [|reflexivity].
  rewrite !map_map. simpl. unfold gather. rewrite mapM_map.
  rewrite (mapM_char _ (fun r => row_pred r <? length thresholds)
                     (row_threshold thresholds))
    by (intros; apply lookup_char).
  destruct (forallb _ rows); simpl; [|reflexivity].
  rewrite !map2_map_map. reflexivity.
Qed.

Lemma tally_app {X : Type} (model : X -> list Q) (thresholds : list Q)
  (l1 l2 : list (X * nat)) :
  tally model thresholds (l1 ++ l2) =
  counters_add (tally model thresholds l1) (tally model thresholds l2).
Proof.
  unfold tally, counters_add. simpl. rewrite !filter_app, !length_app. reflexivity.
Qed.

Section SliceSamplewise.

Variable X : Type.
Variable model : X -> list Q.
Variable transform : X -> X.

Lemma batch_counts_tally (thresholds : list Q) (batch : list (X * nat)) :
  batch_counts
    {| d_values := map row_value (map model (map fst batch));
       d_pred := map row_pred (map model (map fst batch));
       d_thr := map (row_threshold thresholds) (map model (map fst batch));
       confidence_idx := map (sample_accepted thresholds) (map model (map fst batch));
       reject_idx := map (sample_rejected thresholds) (map model (map fst batch)) |}
    (map snd batch) = tally model thresholds batch.
Proof.
  unfold batch_counts, tally. simpl.
  rewrite !count_mask_select by (rewrite !length_map; reflexivity).
  rewrite !map_map, !map2_map_map, !count_true_map. reflexivity.
Qed.

Lemma slice_loop_char (thresholds : list Q) (loader : list (list (X * nat)))
  (c0 : counters) :
  slice_loop model thresholds loader c0 =
  if forallb (fun s => row_in_range thresholds (model (fst s))) (concat loader)
  then Ok (counters_add c0 (tally model thresholds (concat loader)))
  else Raise IndexError.
Proof.
  revert c0; induction loader as [|batch loader IH]; intros c0.
  - simpl. unfold counters_add, tally. simpl. rewrite !Nat.add_0_r.
    destruct c0; reflexivity.
  - cbn [slice_loop concat]. rewrite decide_char, forallb_app, !forallb_map.
    destruct (forallb _ batch); cbn [bind andb]; [|reflexivity].
    rewrite batch_counts_tally, IH.
    destruct (forallb _ (concat loader)); [|reflexivity].
    f_equal. rewrite tally_app. unfold counters_add. simpl. f_equal; lia.
Qed.

Lemma slice_counts_char (hps : hparams) (thresholds : list Q)
  (data : list X) (labels : list nat) (severity : nat) :
  let x_severity := py_slice data (severity * interval) ((severity + 1) * interval) in
  let y_severity := py_slice labels (severity * interval) ((severity + 1) * interval) in
  let dataset := combine (map transform x_severity) y_severity in
  slice_counts model transform hps thresholds data labels severity =
  if negb (length x_severity =? length y_severity) then Raise AssertionError
  else if n_batch_test hps =? 0 then Raise ValueError
  else if forallb (fun s => row_in_range thresholds (model (fst s))) dataset
       then Ok (tally model thresholds dataset, length dataset)
       else Raise IndexError.
Proof.
  intros x_severity y_severity dataset.
  unfold slice_counts, CorruptionDataset. fold x_severity y_severity.
  destruct (length x_severity =? length y_severity); simpl; [|reflexivity].
  fold dataset. unfold DataLoader.
  destruct (n_batch_test hps =? 0) eqn:E; simpl; [reflexivity|].
  apply Nat.eqb_neq in E.
  rewrite slice_loop_char, batches_fuel_concat by auto.
  destruct (forallb _ dataset); simpl; [|reflexivity].
  unfold counters_add, tally. simpl. reflexivity.
Qed.

End SliceSamplewise.

Lemma row_in_range_spec (thresholds row : list Q) :
  row_in_range thresholds row = true ->
  exists v p th,
    row_max row = Ok (v, p) /\ nth_error thresholds p = Some th /\
    row_value row = v /\ row_pred row = p /\ row_threshold thresholds row = th.
Proof.
  unfold row_in_range, row_value, row_pred, row_threshold, row_pred.
  destruct (row_max row) as [[v p]|e]; [|discriminate].
  intros H. apply Nat.ltb_lt in H.
  destruct (nth_error thresholds p) as [th|] eqn:E;
    [|apply nth_error_None in E; lia].
  exists v, p, th. rewrite (nth_error_nth _ _ _ E). auto 6.
Qed.

Lemma filter_length_mono {A : Type} (f g : A -> bool) (l : list A) :
  (forall a, In a l -> f a = true -> g a = true) ->
  length (filter f l) <= length (filter g l).
Proof.
  induction l as [|a l IH]; simpl; intros H; [lia|].
  assert (IH' := IH (fun a Hin => H a (or_intror Hin))).
  destruct (f a) eqn:E.
  - rewrite (H a (or_introl eq_refl) E). simpl. lia.
  - destruct (g a); simpl; lia.
Qed.

Section SliceCounters.

Variable X : Type.
Variable model : X -> list Q.
Variable transform : X -> X.


Lemma eval_severity_same_counts (hps hps' : hparams) (thresholds : list Q)
  (data : list X) (labels : list nat) (severity : nat) :
  slice_counts model transform hps' thresholds data labels severity =
  slice_counts model transform hps thresholds data labels severity ->
  eval_severity model transform hps' thresholds data labels severity =
  eval_severity model transform hps thresholds data labels severity.
Proof. unfold eval_severity. intros ->. reflexivity. Qed.

(** The evaluation of a slice does not depend on the batch size: two positive
    batch sizes give the same counters and statistics, or the same exception,
    for one slice and for the whole severity loop. *)
Theorem slice_evaluation_independent_of_batch_size (hps hps' : hparams)
  (thresholds : list Q) (data : list X) (labels : list nat) :
  n_batch_test hps <> 0 -> n_batch_test hps' <> 0 ->
  (forall severity,
     slice_counts model transform hps' thresholds data labels severity =
     slice_counts model transform hps thresholds data labels severity /\
     eval_severity model transform hps' thresholds data labels severity =
     eval_severity model transform hps thresholds data labels severity) /\
  forall severities printed,
    severity_loop model transform hps' thresholds data labels severities printed =
    severity_loop model transform hps thresholds data labels severities printed.
Proof.
  intros Hb Hb'.
  assert (E : forall severity,
             slice_counts model transform hps' thresholds data labels severity =
             slice_counts model transform hps thresholds data labels severity).
  { intros severity. rewrite !slice_counts_char.
    apply Nat.eqb_neq in Hb, Hb'. rewrite Hb, Hb'. reflexivity. }
  split.
  - intros severity. split; [apply E | apply eval_severity_same_counts, E].
  - intros severities. induction severities as [|s severities IH]; intros printed; simpl.
    + reflexivity.
    + rewrite (eval_severity_same_counts _ _ _ _ _ _ (E s)).
      destruct (eval_severity model transform hps thresholds data labels s);
        [apply IH | reflexivity].
Qed.

(** On one slice, thresholds raised class by class never lower [n_reject] and
    never raise [n_correct] or [n_false]. *)
Theorem raising_thresholds_moves_samples_to_rejected (hps : hparams)
  (ths ths' : list Q) (data : list X) (labels : list nat) (severity : nat)
  (c c' : counters) (n n' : nat) :
  Forall2 Qle ths ths' ->
  slice_counts model transform hps ths data labels severity = Ok (c, n) ->
  slice_counts model transform hps ths' data labels severity = Ok (c', n') ->
  n' = n /\ n_reject c <= n_reject c' /\
  n_correct c' <= n_correct c /\ n_false c' <= n_false c.
Proof.
  intros HF H H'. rewrite slice_counts_char in H, H'.
  destruct (negb _); [discriminate|].
  destruct (n_batch_test hps =? 0); [discriminate|].
  match type of H with
  | context [forallb ?f ?d] => destruct (forallb f d) eqn:F; [|discriminate]
  end.
  match type of H' with
  | context [forallb ?f ?d] => destruct (forallb f d) eqn:F'; [|discriminate]
  end.
  injection H as <- <-. injection H' as <- <-.
  rewrite forallb_forall in F, F'.
  assert (M : forall s : X * nat,
            In s (combine
                    (map transform
                       (py_slice data (severity * interval) ((severity + 1) * interval)))
                    (py_slice labels (severity * interval) ((severity + 1) * interval))) ->
            (row_threshold ths (model (fst s)) <= row_threshold ths' (model (fst s)))%Q).
  { intros s Hs.
    destruct (row_in_range_spec _ _ (F s Hs)) as (v & p & th & Hm & Hth & _ & _ & Et).
    destruct (row_in_range_spec _ _ (F' s Hs)) as (v' & p' & th' & Hm' & Hth' & _ & _ & Et').
    rewrite Et, Et'. assert (p' = p) by congruence. subst p'.
    eapply Forall2_nth_error; eassumption. }
  split; [reflexivity|]. unfold tally. simpl. split; [|split].
  - apply filter_length_mono. intros s Hs. unfold sample_rejected.
    apply Qltb_mono_r, M, Hs.
  - apply filter_length_mono. intros s Hs E.
    apply andb_true_iff in E. destruct E as [E1 E2].
    apply andb_true_iff. split; [|exact E2].
    unfold sample_accepted in *. apply Qgeb_le in E1. apply Qgeb_le.
    eapply Qle_trans; [apply M, Hs | exact E1].
  - apply filter_length_mono. intros s Hs E.
    apply andb_true_iff in E. destruct E as [E1 E2].
    apply andb_true_iff. split; [|exact E2].
    unfold sample_accepted in *. apply Qgeb_le in E1. apply Qgeb_le.
    eapply Qle_trans; [apply M, Hs | exact E1].
Qed.

End SliceCounters.

Section PercentileVector.

Variable X : Type.
Variable model : X -> list Q.


End PercentileVector.

(** ** [CorruptionDataset] as a class *)

Lemma py_getitem_negative {A : Type} (l : list A) (i : nat) (a : A) :
  nth_error l i = Some a ->
  py_getitem l (Z.of_nat i - Z.of_nat (length l)) = Ok a.
Proof.
  intros H. assert (Hi : i < length l) by (apply nth_error_Some; congruence).
  unfold py_getitem.
  replace ((0 <=? Z.of_nat i - Z.of_nat (length l))%Z) with false
    by (symmetry; apply Z.leb_gt; lia).
  simpl.
  replace ((- Z.of_nat (length l) <=? Z.of_nat i - Z.of_nat (length l))%Z &&
           (Z.of_nat i - Z.of_nat (length l) <? 0)%Z) with true
    by (symmetry; apply andb_true_iff; split; [apply Z.leb_le | apply Z.ltb_lt]; lia).
  replace (Z.to_nat (Z.of_nat (length l) + (Z.of_nat i - Z.of_nat (length l)))) with i
    by lia.
  rewrite H. reflexivity.
Qed.

Lemma py_getitem_nonneg {A : Type} (l : list A) (i : nat) (a : A) :
  nth_error l i = Some a -> py_getitem l (Z.of_nat i) = Ok a.
Proof.
  intros H. assert (Hi : i < length l) by (apply nth_error_Some; congruence).
  destruct (py_getitem_in_range l (Z.of_nat i)) as (a' & E & N); [lia|].
  rewrite Nat2Z.id in N. congruence.
Qed.

Lemma py_getitem_out_of_range {A : Type} (l : list A) (k : Z) :
  (k < - Z.of_nat (length l) \/ Z.of_nat (length l) <= k)%Z ->
  py_getitem l k = Raise IndexError.
Proof.
  intros H. unfold py_getitem.
  replace ((0 <=? k)%Z && (k <? Z.of_nat (length l))%Z) with false.
  - replace ((- Z.of_nat (length l) <=? k)%Z && (k <? 0)%Z) with false; [reflexivity|].
    symmetry. apply andb_false_iff.
    destruct H; [left; apply Z.leb_gt | right; apply Z.ltb_ge]; lia.
  - symmetry. apply andb_false_iff.
    destruct H; [left; apply Z.leb_gt | right; apply Z.ltb_ge]; lia.
Qed.

Lemma nth_error_combine {A B : Type} (l1 : list A) (l2 : list B) (i : nat) :
  nth_error (combine l1 l2) i =
  match nth_error l1 i, nth_error l2 i with
  | Some a, Some b => Some (a, b)
  | _, _ => None
  end.
Proof.
  revert l2 i; induction l1 as [|a l1 IH]; intros [|b l2] [|i]; simpl; try reflexivity.
  - destruct (nth_error l1 i); reflexivity.
  - apply IH.
Qed.

Lemma mapM_of_Forall2 {A B : Type} (f : A -> result B) (l : list A) (bs : list B) :
  Forall2 (fun a b => f a = Ok b) l bs -> mapM f l = Ok bs.
Proof.
  induction 1 as [|a b l bs Hab _ IH]; simpl; [reflexivity|].
  rewrite Hab, IH. reflexivity.
Qed.

Lemma Forall2_seq_nth {B : Type} (P : nat -> B -> Prop) (out : list B) (s : nat) :
  (forall i b, nth_error out i = Some b -> P (s + i) b) ->
  Forall2 P (seq s (length out)) out.
Proof.
  revert s; induction out as [|b out IH]; intros s H; simpl; constructor.
  - rewrite <- (Nat.add_0_r s). apply H. reflexivity.
  - apply IH. intros i b' Hi. rewrite Nat.add_succ_comm. apply H. exact Hi.
Qed.

(** A [CorruptionDataset] is built only from arrays with the same number of
    rows. Its length is that number; item [i], for [0 <= i < len], is
    [(transform(x[i]), y[i])] and is also item [i - len]; any other index
    raises [IndexError]; and reading the items 0 .. len-1 in order gives the
    samples over which the slice is evaluated. *)
Theorem CorruptionDataset_items {X : Type} (x : list X) (y : list nat)
  (transform : X -> X) :
  (length x <> length y ->
   CorruptionDataset_init x y (Some transform) = Raise AssertionError) /\
  (length x = length y ->
   exists self,
     CorruptionDataset_init x y (Some transform) = Ok self /\
     CorruptionDataset_len self = length x /\
     (forall i xi yi,
        nth_error x i = Some xi -> nth_error y i = Some yi ->
        CorruptionDataset_getitem self (Z.of_nat i) = Ok (transform xi, yi) /\
        CorruptionDataset_getitem self (Z.of_nat i - Z.of_nat (length x)) =
        Ok (transform xi, yi)) /\
     (forall k, (k < - Z.of_nat (length x) \/ Z.of_nat (length x) <= k)%Z ->
                CorruptionDataset_getitem self k = Raise IndexError) /\
     mapM (CorruptionDataset_getitem self)
          (map Z.of_nat (seq 0 (CorruptionDataset_len self))) =
     CorruptionDataset transform x y).
Proof.
  unfold CorruptionDataset_init, CorruptionDataset. split.
  - intros H. apply Nat.eqb_neq in H. rewrite H. reflexivity.
  - intros H. rewrite (proj2 (Nat.eqb_eq _ _) H).
    eexists. split; [reflexivity|].
    unfold CorruptionDataset_len, CorruptionDataset_getitem. simpl.
    assert (G : forall i xi yi,
               nth_error x i = Some xi -> nth_error y i = Some yi ->
               (sample <- py_getitem x (Z.of_nat i) ;;
                y0 <- py_getitem y (Z.of_nat i) ;; Ok (transform sample, y0)) =
               Ok (transform xi, yi)).
    { intros i xi yi Hx Hy.
      rewrite (py_getitem_nonneg _ _ _ Hx). simpl.
      rewrite (py_getitem_nonneg _ _ _ Hy). reflexivity. }
    split; [reflexivity|]. split; [|split].
    + intros i xi yi Hx Hy. split; [apply G; assumption|].
      rewrite (py_getitem_negative _ _ _ Hx). simpl.
      rewrite H, (py_getitem_negative _ _ _ Hy). reflexivity.
    + intros k Hk. rewrite (py_getitem_out_of_range x k Hk). reflexivity.
    + rewrite mapM_map. apply mapM_of_Forall2.
      replace (length x) with (length (combine (map transform x) y))
        by (rewrite length_combine, length_map, <- H; apply Nat.min_id).
      apply Forall2_seq_nth. intros i [xi' yi] Hi. simpl.
      rewrite nth_error_combine, nth_error_map in Hi.
      destruct (nth_error x i) as [xi|] eqn:Hx; [|discriminate].
      destruct (nth_error y i) as [yi0|] eqn:Hy; [|discriminate].
      simpl in Hi. injection Hi as <- <-. apply G; assumption.
Qed.

(** ** [get_c_dataset] on a directory listing *)

Lemma has_sep_app (a b : string) : has_sep (a ++ b) = has_sep a || has_sep b.
Proof.
  induction a as [|c a IH]; simpl; [reflexivity|].
  rewrite IH. apply orb_assoc.
Qed.

Lemma ends_with_sep_has_sep (a : string) : ends_with_sep a = true -> has_sep a = true.
Proof.
  induction a as [|c a IH]; simpl; [discriminate|].
  destruct a as [|c' a'].
  - intros ->. reflexivity.
  - intros H. rewrite (IH H). apply orb_true_r.
Qed.

Lemma os_path_join_has_sep (a b : string) :
  a <> EmptyString -> has_sep (os_path_join a b) = true.
Proof.
  intros Ha. unfold os_path_join.
  destruct (starts_with_sep b) eqn:Hb.
  - destruct b as [|c b]; simpl in *; [discriminate|]. rewrite Hb. reflexivity.
  - destruct a as [|c a]; [congruence|].
    destruct (ends_with_sep (String c a)) eqn:He.
    + rewrite has_sep_app, (ends_with_sep_has_sep _ He). reflexivity.
    + rewrite !has_sep_app. simpl. rewrite orb_true_r. reflexivity.
Qed.

Lemma before_dot_no_dot (file : string) : has_dot (before_dot file) = false.
Proof.
  induction file as [|c file IH]; simpl; [reflexivity|].
  destruct (Ascii.eqb c ".") eqn:E; simpl; [reflexivity|]. rewrite E, IH. reflexivity.
Qed.

Lemma before_dot_prefix (file : string) :
  exists rest,
    file = (before_dot file ++ rest)%string /\
    (rest = EmptyString \/ exists r, rest = String "." r).
Proof.
  induction file as [|c file IH]; simpl.
  - exists EmptyString. auto.
  - destruct (Ascii.eqb c ".") eqn:E.
    + apply Ascii.eqb_eq in E. subst c. exists (String "." file). simpl. eauto.
    + destruct IH as (rest & Hf & Hr). exists rest. simpl. rewrite <- Hf. auto.
Qed.

Section CorruptionFiles.

Variable X : Type.
Variable np_load : string -> option (npy X).

Lemma yield_files_In (y : pyval X) (files : list string) (v : pyval X) :
  In (Yield v) (yield_files np_load y files) ->
  exists file a, In file files /\ np_load file = Some a /\
                 v = PTuple [PStr (before_dot file); npy_val a; y].
Proof.
  induction files as [|file files IH]; simpl; [contradiction|].
  destruct (np_load file) as [a|] eqn:E; simpl.
  - intros [H|H].
    + injection H as <-. exists file, a. auto.
    + destruct (IH H) as (f & a' & ? & ? & ?). exists f, a'. auto.
  - intros [H|[]]. discriminate.
Qed.

Lemma get_c_dataset_dir_yield_loaded (listdir : list string) (dir : string)
  (v : pyval X) :
  In (Yield v) (get_c_dataset_dir listdir np_load dir) ->
  exists file a, In file listdir /\ np_load file = Some a.
Proof.
  unfold get_c_dataset_dir.
  destruct (np_load (os_path_join dir "labels.npy")) as [y|].
  - intros H. apply yield_files_In in H. destruct H as (file & a & Hin & Ha & _).
    apply filter_In in Hin. exists file, a. tauto.
  - intros [H|[]]. discriminate.
Qed.

(** [get_c_dataset] never yields [labels.npy] as a corruption type: every
    yielded triple comes from another entry of the directory, is named by
    what precedes the first dot of the file name (so the name has no dot),
    and carries the labels of [labels.npy]. *)
Theorem get_c_dataset_yields_named_corruptions (listdir : list string) (dir : string)
  (v : pyval X) :
  In (Yield v) (get_c_dataset_dir listdir np_load dir) ->
  exists file a y rest,
    In file listdir /\ file <> "labels.npy"%string /\
    np_load file = Some a /\
    np_load (os_path_join dir "labels.npy") = Some y /\
    v = PTuple [PStr (before_dot file); npy_val a; npy_val y] /\
    has_dot (before_dot file) = false /\
    file = (before_dot file ++ rest)%string.
Proof.
  unfold get_c_dataset_dir.
  destruct (np_load (os_path_join dir "labels.npy")) as [y|] eqn:Ey.
  - intros H. apply yield_files_In in H. destruct H as (file & a & Hin & Ha & ->).
    apply filter_In in Hin. destruct Hin as [Hin Hne].
    apply negb_true_iff, String.eqb_neq in Hne.
    destruct (before_dot_prefix file) as (rest & Hf & _).
    exists file, a, y, rest. repeat split; auto using before_dot_no_dot.
  - intros [H|[]]. discriminate.
Qed.

(** [get_c_dataset] opens each corruption file under its bare name, not under
    [dir]: when no file can be opened by a path without a directory part (the
    files of [dir] are not in the working directory), the generator yields
    nothing, and after loading the labels it raises [FileNotFoundError] on
    the bare name of the first corruption file; yet with a non-empty [dir]
    every path [os.path.join(dir, file)] has a directory part. *)
Theorem get_c_dataset_opens_bare_names (listdir : list string) (dir : string) :
  (forall file, In file listdir -> has_sep file = false) ->
  (forall path, has_sep path = false -> np_load path = None) ->
  (forall v, ~ In (Yield v) (get_c_dataset_dir listdir np_load dir)) /\
  (forall y file files,
     np_load (os_path_join dir "labels.npy") = Some y ->
     filter (fun file => negb (String.eqb file "labels.npy")) listdir = file :: files ->
     get_c_dataset_dir listdir np_load dir = [FileNotFound file]) /\
  (dir <> EmptyString -> forall file, has_sep (os_path_join dir file) = true).
Proof.
  intros Hbase Hcwd. split; [|split].
  - intros v H. apply get_c_dataset_dir_yield_loaded in H.
    destruct H as (file & a & Hin & Ha).
    rewrite (Hcwd file (Hbase file Hin)) in Ha. discriminate.
  - intros y file files Hy Hf. unfold get_c_dataset_dir. rewrite Hy, Hf. simpl.
    assert (Hin : In file listdir).
    { assert (H : In file (file :: files)) by (left; reflexivity).
      rewrite <- Hf in H. apply filter_In in H. apply H. }
    rewrite (Hcwd file (Hbase file Hin)). reflexivity.
  - intros Hd file. apply os_path_join_has_sep, Hd.
Qed.

(** When the labels and every other entry of the directory load, the
    generator yields one triple per entry other than [labels.npy], in the
    order of the listing: the triples on which the corruption loop runs. *)
Theorem get_c_dataset_dir_all_loaded (listdir : list string) (dir : string)
  (y : list nat) (data : string -> list X) :
  np_load (os_path_join dir "labels.npy") = Some (NpLabels y) ->
  (forall file, In file listdir -> file <> "labels.npy"%string ->
                np_load file = Some (NpImages (data file))) ->
  get_c_dataset_dir listdir np_load dir =
  map Yield
      (get_c_dataset
         (map (fun file => (before_dot file, data file))
              (filter (fun file => negb (String.eqb file "labels.npy")) listdir))
         y).
Proof.
  intros Hy Hf. unfold get_c_dataset_dir, get_c_dataset. rewrite Hy. simpl.
  assert (H : forall file,
             In file (filter (fun file => negb (String.eqb file "labels.npy")) listdir) ->
             np_load file = Some (NpImages (data file))).
  { intros file Hin. apply filter_In in Hin. destruct Hin as [Hin Hne].
    apply negb_true_iff, String.eqb_neq in Hne. auto. }
  induction (filter (fun file => negb (String.eqb file "labels.npy")) listdir)
    as [|file files IH]; simpl; [reflexivity|].
  rewrite (H file (or_introl eq_refl)). simpl. f_equal.
  apply IH. intros; apply H; right; assumption.
Qed.

End CorruptionFiles.

(** ** Checkpoints *)

Section CheckpointFacts.

Variable W : Type.
Variable torch_load : string -> option (list (string * W)).

(** Both scripts read the SDIM weights from the same file,
    [log_dir/SDIM_<classifier>_<problem>.pth], but [eval_adv.py] takes the
    entry ['model_state'] and [eval_robustness.py] the entry ['state']: one
    checkpoint serves both only if it holds both keys, and [eval_adv.py] in
    addition needs the classifier name to be ['resnext'] or ['resnet'],
    failing otherwise on the unbound variable [classifier] before any file is
    read. *)
Theorem sdim_checkpoint_needs_both_keys (log_dir classifier_name problem : string) :
  ((exists r, load_pretrained_sdim torch_load log_dir classifier_name problem = inr r) <->
   (classifier_name = "resnext"%string \/ classifier_name = "resnet"%string) /\
   exists checkpoint state,
     torch_load (sdim_checkpoint_path log_dir classifier_name problem) = Some checkpoint /\
     dict_get checkpoint "model_state" = Some state) /\
  ((exists state, inference_rejection_load torch_load log_dir classifier_name problem
                  = inr state) <->
   exists checkpoint state,
     torch_load (sdim_checkpoint_path log_dir classifier_name problem) = Some checkpoint /\
     dict_get checkpoint "state" = Some state) /\
  (classifier_name <> "resnext"%string -> classifier_name <> "resnet"%string ->
   load_pretrained_sdim torch_load log_dir classifier_name problem =
   inl (UnboundLocal "classifier")) /\
  (forall checkpoint,
     torch_load (sdim_checkpoint_path log_dir classifier_name problem) = Some checkpoint ->
     dict_get checkpoint "state" = None ->
     inference_rejection_load torch_load log_dir classifier_name problem =
     inl (KeyError "state")) /\
  (forall checkpoint,
     classifier_name = "resnext"%string \/ classifier_name = "resnet"%string ->
     torch_load (sdim_checkpoint_path log_dir classifier_name problem) = Some checkpoint ->
     dict_get checkpoint "model_state" = None ->
     load_pretrained_sdim torch_load log_dir classifier_name problem =
     inl (KeyError "model_state")).
Proof.
  unfold load_pretrained_sdim, inference_rejection_load.
  split; [|split; [|split; [|split]]].
  - split.
    + intros [r H].
      destruct (String.eqb classifier_name "resnext") eqn:E1.
      * apply String.eqb_eq in E1.
        destruct (torch_load _) as [ck|]; [|discriminate].
        destruct (dict_get ck "model_state") as [st|] eqn:Ek; [|discriminate].
        split; [auto|]. eauto.
      * destruct (String.eqb classifier_name "resnet") eqn:E2; [|discriminate].
        apply String.eqb_eq in E2.
        destruct (torch_load _) as [ck|]; [|discriminate].
        destruct (dict_get ck "model_state") as [st|] eqn:Ek; [|discriminate].
        split; [auto|]. eauto.
    + intros [Hn (ck & st & Hl & Hk)]. rewrite Hl, Hk.
      destruct Hn as [->| ->]; simpl; eauto.
  - split.
    + intros [st H]. destruct (torch_load _) as [ck|]; [|discriminate].
      destruct (dict_get ck "state") as [st'|] eqn:Ek; [|discriminate]. eauto.
    + intros (ck & st & Hl & Hk). rewrite Hl, Hk. eauto.
  - intros H1 H2. apply String.eqb_neq in H1, H2. rewrite H1, H2. reflexivity.
  - intros ck Hl Hk. rewrite Hl, Hk. reflexivity.
  - intros ck Hn Hl Hk. rewrite Hl, Hk. destruct Hn as [->| ->]; reflexivity.
Qed.

End CheckpointFacts.

(** ** How [inference_rejection] ends *)

Section InferenceOutcome.

Variable X : Type.
Variable model : X -> list Q.
Variable transform : X -> X.
Variable image_rows : X -> list X.


End InferenceOutcome.

(** ** Instances of the further properties *)

Lemma thresholds_are_observed_top_scores_witness :
  length [5; 5]%Q = n_classes ex_hps /\
  forall c, c < n_classes ex_hps ->
    exists t x, nth_error [5; 5]%Q c = Some t /\ In (x, c) ex_train /\
                argmax (ex_model x) = Ok c /\ nth_error (ex_model x) c = Some t /\
                forall u, In u (ex_model x) -> (u <= t)%Q.
Proof.
  apply (proj1 (thresholds_are_observed_top_scores (list Q) ex_model ex_hps ex_train)).
  reflexivity.
Defined.


Lemma raising_thresholds_only_rejects_more_witness :
  exists d d',
    decide [2; 2]%Q [[3; 1]; [1; 4]]%Q = Ok d /\
    decide [7 # 2; 5]%Q [[3; 1]; [1; 4]]%Q = Ok d' /\
    d_pred d = d_pred d' /\
    (forall i, In i (spec_reject d) -> In i (spec_reject d')) /\
    n_reject (batch_counts d [0; 1]) <= n_reject (batch_counts d' [0; 1]).
Proof.
  do 2 eexists. split; [reflexivity|]. split; [reflexivity|].
  apply (raising_thresholds_only_rejects_more [2; 2]%Q [7 # 2; 5]%Q [[3; 1]; [1; 4]]%Q).
  - repeat constructor; discriminate.
  - reflexivity.
  - reflexivity.
Defined.


Lemma adv_run_counts_bounded_witness :
  exists st,
    attack_run_rejection_policy ex_model ex_generate ex_hps ex_train ex_test = Ok st /\
    n_eval (a_counters st) <= 2 /\
    n_successful_adv (a_counters st) <= n_eval (a_counters st) /\
    (success_adv_rate st <= 1)%Q.
Proof.
  eexists. split; [vm_compute; reflexivity|].
  destruct (adv_run_counts_bounded (list Q) ex_model ex_generate ex_hps ex_train ex_test)
    with (st := {| a_counters := {| n_eval := 2; n_successful_adv := 1;
                                    n_rejected_adv1 := 2; n_rejected_adv2 := 2 |};
                   reject_rate1 := (Qnat 2 / Qnat 1)%Q;
                   reject_rate2 := (Qnat 2 / Qnat 1)%Q;
                   success_adv_rate := (Qnat 1 / Qnat 2)%Q |})
    as (H1 & _ & H3 & _ & _ & H6).
  - intros xs. apply length_map.
  - vm_compute. reflexivity.
  - auto.
Defined.

Lemma adv_run_completes_only_with_success_witness :
  exists st,
    attack_run_rejection_policy ex_model ex_generate ex_hps ex_train ex_test = Ok st /\
    1 <= n_successful_adv (a_counters st) /\ (0 < success_adv_rate st)%Q.
Proof.
  eexists. split; [vm_compute; reflexivity|].
  destruct (adv_run_completes_only_with_success (list Q) ex_model ex_generate
              ex_hps ex_train ex_test _ eq_refl) as (H1 & _ & H3 & _).
  auto.
Defined.


Lemma slice_statistics_in_unit_interval_witness :
  exists st,
    eval_severity ex_model ex_transform ex_hps [2; 2]%Q ex_data ex_labels 0 = Ok st /\
    (0 <= acc st <= 1)%Q /\ (0 <= acc_remain st <= 1)%Q.
Proof.
  eexists. split; [vm_compute; reflexivity|].
  destruct (slice_statistics_in_unit_interval (list Q) ex_model ex_transform ex_hps
              [2; 2]%Q ex_data ex_labels 0 _ eq_refl) as (H1 & _ & _ & H4).
  auto.
Defined.

Lemma severity_loop_prints_until_first_failure_witness :
  exists new,
    fst (severity_loop ex_model ex_transform ex_hps [2; 2]%Q ex_data ex_labels
                       (seq 0 5) []) = [] ++ new /\
    length new = 1 /\
    eval_severity ex_model ex_transform ex_hps [2; 2]%Q ex_data ex_labels 1 =
    Raise ZeroDivisionError.
Proof.
  destruct (severity_loop ex_model ex_transform ex_hps [2; 2]%Q ex_data ex_labels
                          (seq 0 5) []) as [out r] eqn:E.
  destruct (severity_loop_prints_until_first_failure (list Q) ex_model ex_transform
              ex_hps [2; 2]%Q ex_data ex_labels (seq 0 5) [] out r E)
    as (new & Hout & _ & _).
  exists new. split; [exact Hout|].
  vm_compute in E. injection E as E1 E2. subst out.
  simpl in Hout. subst new. split; reflexivity.
Defined.

Lemma calibration_independent_of_batch_size_witness :
  get_thresholds ex_model
    {| n_classes := 2; n_batch_test := 1; percentile := 1 # 10 |} ex_train =
  get_thresholds ex_model ex_hps ex_train.
Proof.
  apply (calibration_independent_of_batch_size (list Q) ex_model ex_hps
           {| n_classes := 2; n_batch_test := 1; percentile := 1 # 10 |} ex_train);
    [reflexivity | reflexivity | discriminate | discriminate].
Defined.

Lemma ex_model_nonempty_on_train :
  forall x y, In (x, y) ex_train -> ex_model x <> [].
Proof.
  intros x y H. simpl in H.
  repeat (destruct H as [H|H]; [inversion H; subst; discriminate|]).
  contradiction.
Defined.

Lemma calibration_succeeds_iff_every_class_observed_witness :
  (exists ths, get_thresholds ex_model ex_hps ex_train = Ok ths) <->
  (forall c, c < n_classes ex_hps -> spec_S_c ex_model ex_train c <> []).
Proof.
  apply (calibration_succeeds_iff_every_class_observed (list Q) ex_model ex_hps ex_train);
    [discriminate | reflexivity | discriminate | exact ex_model_nonempty_on_train].
Defined.



Lemma slice_evaluation_independent_of_batch_size_witness :
  eval_severity ex_model ex_transform
    {| n_classes := 2; n_batch_test := 1; percentile := 1 # 10 |}
    [2; 2]%Q ex_data ex_labels 0 =
  eval_severity ex_model ex_transform ex_hps [2; 2]%Q ex_data ex_labels 0.
Proof.
  apply (proj1 (slice_evaluation_independent_of_batch_size (list Q) ex_model ex_transform
                  ex_hps {| n_classes := 2; n_batch_test := 1; percentile := 1 # 10 |}
                  [2; 2]%Q ex_data ex_labels ltac:(discriminate) ltac:(discriminate))).
Defined.

Lemma raising_thresholds_moves_samples_to_rejected_witness :
  n_reject {| n_correct := 2; n_false := 0; n_reject := 0 |} <=
  n_reject {| n_correct := 0; n_false := 0; n_reject := 2 |} /\
  n_correct {| n_correct := 0; n_false := 0; n_reject := 2 |} <=
  n_correct {| n_correct := 2; n_false := 0; n_reject := 0 |}.
Proof.
  destruct (raising_thresholds_moves_samples_to_rejected (list Q) ex_model ex_transform
              ex_hps [2; 2]%Q [5; 5]%Q ex_data ex_labels 0
              {| n_correct := 2; n_false := 0; n_reject := 0 |}
              {| n_correct := 0; n_false := 0; n_reject := 2 |} 2 2)
    as (_ & H1 & H2 & _).
  - repeat constructor; discriminate.
  - reflexivity.
  - reflexivity.
  - auto.
Defined.


Lemma CorruptionDataset_items_witness :
  exists self,
    CorruptionDataset_init ex_data ex_labels (Some ex_transform) = Ok self /\
    CorruptionDataset_len self = 2 /\
    CorruptionDataset_getitem self (-1) = Ok ([1; 4]%Q, 1) /\
    CorruptionDataset_getitem self 2 = Raise IndexError.
Proof.
  destruct (proj2 (CorruptionDataset_items ex_data ex_labels ex_transform) eq_refl)
    as (self & Hinit & Hlen & Hitem & Hout & _).
  exists self. split; [exact Hinit|]. split; [exact Hlen|]. split.
  - apply (Hitem 1 [1; 4]%Q 1 eq_refl eq_refl).
  - apply Hout. simpl. lia.
Defined.

Lemma get_c_dataset_yields_named_corruptions_witness :
  exists file a y rest,
    In file ex_listdir /\ file <> "labels.npy"%string /\
    ex_np_load_cwd file = Some a /\
    ex_np_load_cwd (os_path_join "data/CIFAR-10-C" "labels.npy") = Some y /\
    PTuple [PStr "gaussian_noise"; PImages ex_data; PLabels ex_labels] =
    PTuple [PStr (before_dot file); npy_val a; npy_val y] /\
    has_dot (before_dot file) = false /\
    file = (before_dot file ++ rest)%string.
Proof.
  apply (get_c_dataset_yields_named_corruptions (list Q) ex_np_load_cwd ex_listdir
           "data/CIFAR-10-C").
  left. reflexivity.
Defined.

Lemma ex_np_load_dir_needs_sep :
  forall path, has_sep path = false -> ex_np_load_dir path = None.
Proof.
  intros path H. unfold ex_np_load_dir.
  destruct (String.eqb path "data/CIFAR-10-C/labels.npy") eqn:E1.
  - apply String.eqb_eq in E1. subst path. discriminate.
  - destruct (String.eqb path "data/CIFAR-10-C/gaussian_noise.npy") eqn:E2; [|reflexivity].
    apply String.eqb_eq in E2. subst path. discriminate.
Defined.

Lemma get_c_dataset_opens_bare_names_witness :
  get_c_dataset_dir ex_listdir ex_np_load_dir "data/CIFAR-10-C" =
  [FileNotFound "gaussian_noise.npy"] /\
  ex_np_load_dir (os_path_join "data/CIFAR-10-C" "gaussian_noise.npy") =
  Some (NpImages ex_data).
Proof.
  destruct (get_c_dataset_opens_bare_names (list Q) ex_np_load_dir ex_listdir
              "data/CIFAR-10-C") as (_ & H & _).
  - intros file Hin. simpl in Hin.
    destruct Hin as [<-|[<-|[]]]; reflexivity.
  - exact ex_np_load_dir_needs_sep.
  - split; [|reflexivity].
    apply (H (NpLabels ex_labels) "gaussian_noise.npy"%string []); reflexivity.
Defined.

Lemma get_c_dataset_dir_all_loaded_witness :
  get_c_dataset_dir ex_listdir ex_np_load_cwd "data/CIFAR-10-C" =
  map Yield (get_c_dataset [("gaussian_noise"%string, ex_data)] ex_labels).
Proof.
  apply (get_c_dataset_dir_all_loaded (list Q) ex_np_load_cwd ex_listdir
           "data/CIFAR-10-C" ex_labels (fun _ => ex_data)).
  - reflexivity.
  - intros file Hin Hne. simpl in Hin.
    destruct Hin as [<-|[<-|[]]]; [reflexivity | congruence].
Defined.

Lemma sdim_checkpoint_needs_both_keys_witness :
  load_pretrained_sdim ex_torch_load "./logs" "resnet" "cifar10" = inr (ResNet34, 7) /\
  inference_rejection_load ex_torch_load "./logs" "resnet" "cifar10" =
  inl (KeyError "state") /\
  load_pretrained_sdim ex_torch_load "./logs" "densenet" "cifar10" =
  inl (UnboundLocal "classifier").
Proof.
  destruct (sdim_checkpoint_needs_both_keys nat ex_torch_load "./logs" "resnet" "cifar10")
    as (_ & _ & _ & Hk & _).
  destruct (sdim_checkpoint_needs_both_keys nat ex_torch_load "./logs" "densenet" "cifar10")
    as (_ & _ & Hu & _).
  split; [reflexivity|]. split.
  - apply (Hk [("model_state"%string, 7)]); reflexivity.
  - apply Hu; discriminate.
Defined.

(** ** The percentile option in the adversarial script *)

Section AdvPercentile.

Variable X : Type.
Variable model : X -> list Q.
Variable generate : list X -> list X.

(** [eval_adv.py] accepts [--percentile] but never reads it: its thresholds
    are always the 1st and 2nd percentile, and the whole run is the same for
    every value of the option. *)
Theorem adv_run_ignores_percentile (hps : hparams) (p : Q)
  (train test : list (X * nat)) :
  let hps' := {| n_classes := n_classes hps; n_batch_test := n_batch_test hps;
                 percentile := p |} in
  adv_thresholds model hps' train = adv_thresholds model hps train /\
  attack_run_rejection_policy model generate hps' train test =
  attack_run_rejection_policy model generate hps train test.
Proof.
  destruct hps as [n b q]. simpl. split; reflexivity.
Qed.

End AdvPercentile.
